(** * TidyJSON: the hand-written parser of [tidyJSON.py]

  A shallow embedding of [ErrorManager] and of the parsing methods of
  [TidyJSONParser], followed by the properties of the parser.

  Conventions.
  - A Python [str] is a [string]; each [ascii] stands for the code point
    of the same number (0..255), so the texts covered are those over
    that range.  A one-character [str] is an [ascii].
  - A Python [int] is a [Z]; a Python [float] is a binary64 value of
    [spec_float] (precision 53, [emax] 1024).
  - A method is a function from the parser object to an outcome and the
    parser object afterwards: the object survives a raised exception. *)

From Stdlib Require Import ZArith List String Ascii Bool Lia.
From Stdlib Require Import Floats.SpecFloat.
Import ListNotations.

Set Warnings "-register-all".

Local Open Scope string_scope.
Local Open Scope Z_scope.

(** ** Python built-ins used by the parser *)

Module Py.

(** [len(s)] *)
Definition len (s : string) : Z := Z.of_nat (String.length s).

(** The double quote, code point 34, and the text of it alone. *)
Definition quote : ascii := "034"%char.
Definition dquote : string := String quote EmptyString.

(** [s[i]] for an integer [i]; [None] stands for [IndexError]. *)
Definition getitem (s : string) (i : Z) : option ascii :=
  let n := len s in
  if (0 <=? i) && (i <? n) then String.get (Z.to_nat i) s
  else if (- n <=? i) && (i <? 0) then String.get (Z.to_nat (i + n)) s
  else None.

(** A slice bound of [s[a:b]] brought into [0..n]: a negative bound
    counts from the end. *)
Definition slice_index (n i : Z) : Z :=
  if i <? 0 then Z.max 0 (i + n) else Z.min i n.

(** [s[start:stop]] *)
Definition slice (s : string) (start stop : Z) : string :=
  let n := len s in
  let lo := slice_index n start in
  let hi := slice_index n stop in
  String.substring (Z.to_nat lo) (Z.to_nat (hi - lo)) s.

(** [s.startswith(prefix, start)] *)
Definition startswith (s prefix : string) (start : Z) : bool :=
  let n := len s in
  let lo := if start <? 0 then Z.max 0 (start + n) else start in
  if n - len prefix <? lo then false
  else String.eqb (String.substring (Z.to_nat lo) (String.length prefix) s) prefix.

(** [c in s] for a one-character [c] *)
Fixpoint contains (c : ascii) (s : string) : bool :=
  match s with
  | EmptyString => false
  | String d s' => Ascii.eqb d c || contains c s'
  end.

Definition code (c : ascii) : Z := Z.of_N (N_of_ascii c).

(** [c.isdigit()]: the ASCII digits and, in the range covered, the
    superscripts U+00B2, U+00B3 and U+00B9. *)
Definition isdigit (c : ascii) : bool :=
  let n := code c in
  ((48 <=? n) && (n <=? 57)) || (n =? 178) || (n =? 179) || (n =? 185).

(** The characters [int] and [float] accept as decimal digits. *)
Definition isdecimal (c : ascii) : bool :=
  let n := code c in (48 <=? n) && (n <=? 57).

Definition digit_value (c : ascii) : Z := code c - 48.

(** White space as [int] and [float] see it: the C white space of
    ASCII, and U+0085 and U+00A0, which they first turn into a space. *)
Definition isspace (c : ascii) : bool :=
  let n := code c in
  ((9 <=? n) && (n <=? 13)) || (n =? 32) || (n =? 133) || (n =? 160).

Fixpoint lstrip (s : string) : string :=
  match s with
  | EmptyString => EmptyString
  | String c s' => if isspace c then lstrip s' else s
  end.

Fixpoint all_space (s : string) : bool :=
  match s with
  | EmptyString => true
  | String c s' => isspace c && all_space s'
  end.

(** An optional sign: [true] for a minus. *)
Definition sign (s : string) : bool * string :=
  match s with
  | String "-" s' => (true, s')
  | String "+" s' => (false, s')
  | _ => (false, s)
  end.

(** A run of decimal digits in which single underscores may separate
    digits: the value so far, the number of digits, and the rest of the
    text; [None] when an underscore is doubled or ends the run. *)
Fixpoint digits_us (s : string) (acc count : Z) (after_us : bool)
  : option (Z * Z * string) :=
  match s with
  | EmptyString => if after_us then None else Some (acc, count, s)
  | String c s' =>
      if isdecimal c then digits_us s' (10 * acc + digit_value c) (count + 1) false
      else if Ascii.eqb c "_" then
        if after_us then None else digits_us s' acc count true
      else if after_us then None else Some (acc, count, s)
  end.

(** The interpreter's default cap on the digits of a converted text. *)
Definition int_max_str_digits : Z := 4300.

(** [int(s)] in base ten; [None] stands for [ValueError]. *)
Definition int (s : string) : option Z :=
  let (neg, body) := sign (lstrip s) in
  match body with
  | String "_" _ => None
  | _ =>
      match digits_us body 0 0 false with
      | Some (v, count, rest) =>
          if (count =? 0) || (int_max_str_digits <? count) || negb (all_space rest)
          then None
          else Some (if neg then - v else v)
      | None => None
      end
  end.

(** A plain run of decimal digits. *)
Fixpoint digits (s : string) (acc count : Z) : Z * Z * string :=
  match s with
  | EmptyString => (acc, count, s)
  | String c s' =>
      if isdecimal c then digits s' (10 * acc + digit_value c) (count + 1)
      else (acc, count, s)
  end.

(** [float] drops an underscore that stands between two digits and
    refuses any other. *)
Fixpoint drop_us (s : string) (prev : option ascii) : option string :=
  match s with
  | EmptyString =>
      match prev with Some "_"%char => None | _ => Some EmptyString end
  | String c s' =>
      if Ascii.eqb c "_" then
        match prev with
        | Some p => if isdecimal p then drop_us s' (Some c) else None
        | None => None
        end
      else
        match prev with
        | Some "_"%char =>
            if isdecimal c
            then option_map (String c) (drop_us s' (Some c)) else None
        | _ => option_map (String c) (drop_us s' (Some c))
        end
  end.

Definition lower (c : ascii) : ascii :=
  let n := code c in
  if (65 <=? n) && (n <=? 90) then ascii_of_N (Z.to_N (n + 32)) else c.

Fixpoint lowercase (s : string) : string :=
  match s with
  | EmptyString => EmptyString
  | String c s' => String (lower c) (lowercase s')
  end.

Definition binary64 (neg : bool) (m : positive) (e : Z) : spec_float :=
  binary_round 53 1024 neg m e.

(** The binary64 value nearest to [m * 10 ^ e10], ties to even. *)
Definition of_decimal (neg : bool) (m e10 : Z) : spec_float :=
  match m with
  | Zpos p =>
      if 0 <=? e10 then binary64 neg (p * Z.to_pos (10 ^ e10)) 0
      else SFdiv 53 1024 (S754_finite neg p 0)
                         (S754_finite false (Z.to_pos (10 ^ (- e10))) 0)
  | _ => S754_zero neg
  end.

(** An optional exponent part; without digits there is none, and the
    text is left where it was. *)
Definition exponent (s : string) : Z * string :=
  match s with
  | String c s' =>
      if Ascii.eqb (lower c) "e" then
        let (neg, t) := sign s' in
        let '(v, count, rest) := digits t 0 0 in
        if count =? 0 then (0, s) else (if neg then - v else v, rest)
      else (0, s)
  | EmptyString => (0, s)
  end.

(** The decimal text of a float after its sign. *)
Definition decimal (neg : bool) (s : string) : option spec_float :=
  let '(i, ni, r1) := digits s 0 0 in
  let '(m, nf, r2) :=
    match r1 with
    | String "." t => let '(m, nf, r2) := digits t i 0 in (m, nf, r2)
    | _ => (i, 0, r1)
    end in
  if ni + nf =? 0 then None
  else
    let (e, r3) := exponent r2 in
    match r3 with
    | EmptyString => Some (of_decimal neg m (e - nf))
    | _ => None
    end.

Fixpoint rstrip_rev (s : string) (acc : string) (pending : string) : string :=
  match s with
  | EmptyString => acc
  | String c s' =>
      if isspace c then rstrip_rev s' acc (pending ++ String c EmptyString)
      else rstrip_rev s' (acc ++ pending ++ String c EmptyString) EmptyString
  end.

(** [s.strip()] for the white space of [isspace]. *)
Definition strip (s : string) : string := rstrip_rev (lstrip s) "" "".

(** [float(s)]; [None] stands for [ValueError]. *)
Definition float (s : string) : option spec_float :=
  match (if contains "_" s then drop_us s None else Some s) with
  | None => None
  | Some t =>
      let (neg, body) := sign (strip t) in
      let l := lowercase body in
      if String.eqb l "inf" || String.eqb l "infinity" then Some (S754_infinity neg)
      else if String.eqb l "nan" then Some S754_nan
      else decimal neg body
  end.

End Py.

(** ** Values *)

(** The objects the parser builds: [None], [bool], [int], [float], [str],
  [list] and [dict].  A [dict] keeps its items in insertion order. *)
Inductive value : Type :=
| VNone
| VBool (b : bool)
| VInt (z : Z)
| VFloat (f : spec_float)
| VStr (s : string)
| VList (l : list value)
| VDict (d : list (value * value)).

Module Dict.

(** Keys that can be hashed: everything but a [list] or a [dict]. *)
Definition hashable (k : value) : bool :=
  match k with
  | VList _ | VDict _ => false
  | _ => true
  end.

(** [f == z] for a float and an int, compared exactly. *)
Definition float_eq_int (f : spec_float) (z : Z) : bool :=
  match f with
  | S754_zero _ => z =? 0
  | S754_finite s m e =>
      let v := if s then Zneg m else Zpos m in
      if 0 <=? e then z =? v * 2 ^ e
      else (v mod 2 ^ (- e) =? 0) && (z =? v / 2 ^ (- e))
  | _ => false
  end.

(** [a == b] on hashable keys: [True] is [1], [False] is [0], numbers
    compare by value, texts by content. *)
Definition key_eqb (a b : value) : bool :=
  match a, b with
  | VNone, VNone => true
  | VStr s, VStr t => String.eqb s t
  | VBool x, VBool y => Bool.eqb x y
  | VBool x, VInt z | VInt z, VBool x => Z.b2z x =? z
  | VInt x, VInt y => x =? y
  | VFloat f, VFloat g => SFeqb f g
  | VFloat f, VInt z | VInt z, VFloat f => float_eq_int f z
  | VFloat f, VBool x | VBool x, VFloat f => float_eq_int f (Z.b2z x)
  | _, _ => false
  end.

(** [d[k] = v] on hashable [k]: an equal key keeps its place and its
    key object and takes the new value; a new key goes last. *)
Fixpoint setitem (d : list (value * value)) (k v : value) : list (value * value) :=
  match d with
  | [] => [(k, v)]
  | (k', v') :: d' =>
      if key_eqb k' k then (k', v) :: d' else (k', v') :: setitem d' k v
  end.

End Dict.

(** ** Errors *)

Inductive TidyErrorType : Type :=
| INVALID_CHARACTER
| MISSING_BRACKET
| MISSING_QUOTE
| UNEXPECTED_TOKEN.

Module ErrorManager.

Record t : Type := new
  { error_type : TidyErrorType;
    position : Z;
    json_str : string }.

Definition _get_context (self : t) : string :=
  Py.slice (json_str self)
           (Z.max 0 (position self - 10))
           (Z.min (Py.len (json_str self)) (position self + 10)).

(** The context snippet [__attrs_post_init__] computes for the message. *)
Definition error_context (self : t) : string := _get_context self.

End ErrorManager.

(** What a [raise] carries: an [ErrorManager], or an exception of the
  interpreter. *)
Inductive exn : Type :=
| Error (e : ErrorManager.t)
| AttributeError
| IndexError
| TypeError
| ValueError.

(** How a call ends: it returns, it raises, or the fuel of the model ran
  out before it did either. *)
Inductive outcome (A : Type) : Type :=
| Return (a : A)
| Raise (e : exn)
| OutOfFuel.

Arguments Return {A} a.
Arguments Raise {A} e.
Arguments OutOfFuel {A}.

(** ** The parser *)

Module TidyJSONParser.

Record t : Type := new
  { json_str : string;
    index : Z }.

Definition method (A : Type) : Type := t -> outcome A * t.

Definition ret {A} (a : A) : method A := fun self => (Return a, self).

Definition bind {A B} (m : method A) (k : A -> method B) : method B :=
  fun self =>
    match m self with
    | (Return a, self') => k a self'
    | (Raise e, self') => (Raise e, self')
    | (OutOfFuel, self') => (OutOfFuel, self')
    end.

Definition raise {A} (e : exn) : method A := fun self => (Raise e, self).

Definition out_of_fuel {A} : method A := fun self => (OutOfFuel, self).

Definition get_self : method t := fun self => (Return self, self).

Definition set_index (i : Z) : method unit :=
  fun self => (Return tt, {| json_str := json_str self; index := i |}).

Declare Scope method_scope.
Delimit Scope method_scope with method.
Notation "x <- m ;; k" := (bind m (fun x => k))
  (at level 61, m at next level, right associativity) : method_scope.
Notation "m ;; k" := (bind m (fun _ => k))
  (at level 61, right associativity) : method_scope.
Local Open Scope method_scope.

(** [self.index += n] *)
Definition advance (n : Z) : method unit :=
  self <- get_self ;; set_index (index self + n).

(** [raise ErrorManager(error_type=kind, position=self.index,
    json_str=self.json_str)] *)
Definition raise_error {A} (kind : TidyErrorType) : method A :=
  self <- get_self ;;
  raise (Error (ErrorManager.new kind (index self) (json_str self))).

Definition get_char : method (option ascii) :=
  self <- get_self ;;
  if index self <? Py.len (json_str self) then
    match Py.getitem (json_str self) (index self) with
    | Some c => ret (Some c)
    | None => raise IndexError
    end
  else ret None.

(** [c == s] for the result [c] of [get_char] and a text [s]. *)
Definition char_is (c : option ascii) (s : string) : bool :=
  match c with
  | Some a => String.eqb (String a EmptyString) s
  | None => false
  end.

Definition is_none (c : option ascii) : bool :=
  match c with None => true | Some _ => false end.

(** [while cond(self.get_char()): self.index += 1], at most [n] tests. *)
Fixpoint advance_while (n : nat) (cond : option ascii -> bool) : method unit :=
  match n with
  | O => out_of_fuel
  | S n' =>
      c <- get_char ;;
      if cond c then advance 1 ;; advance_while n' cond else ret tt
  end.

(** The tests such a loop can make before the index passes the end of
    the text, where [get_char] gives [None]. *)
Definition budget (self : t) : nat :=
  S (Z.to_nat (Py.len (json_str self) - index self)).

Definition scan_while (cond : option ascii -> bool) : method unit :=
  fun self => advance_while (budget self) cond self.

Definition skip_spaces_and_char (char : string) : method unit :=
  scan_while (fun c => char_is c char || char_is c " ").

Definition parse_string : method value :=
  self <- get_self ;;
  let start := index self + 1 in
  set_index (index self + 1) ;;
  scan_while (fun c => negb (char_is c Py.dquote) && negb (is_none c)) ;;
  self' <- get_self ;;
  let end_ := index self' in
  advance 1 ;;
  ret (VStr (Py.slice (json_str self') start end_)).

Definition parse_number : method value :=
  self <- get_self ;;
  let start := index self in
  scan_while (fun c => negb (is_none c || char_is c "," || char_is c " "
                             || char_is c "}" || char_is c "]")) ;;
  self' <- get_self ;;
  let num_str := Py.slice (json_str self') start (index self') in
  if Py.contains "." num_str then
    match Py.float num_str with
    | Some f => ret (VFloat f)
    | None => raise ValueError
    end
  else
    match Py.int num_str with
    | Some z => ret (VInt z)
    | None => raise ValueError
    end.

(** The body of the [for] loop over the literals. *)
Fixpoint first_literal (literals : list (string * value)) : method value :=
  match literals with
  | [] => raise_error UNEXPECTED_TOKEN
  | (literal, v) :: rest =>
      self <- get_self ;;
      if Py.startswith (json_str self) literal (index self)
      then advance (Py.len literal) ;; ret v
      else first_literal rest
  end.

Definition parse_boolean_or_null : method value :=
  first_literal [("true", VBool true); ("false", VBool false); ("null", VNone)].

(** The body of [parse_object] is its docstring alone: the call returns
    [None]. *)
Definition parse_object : method value := ret VNone.

(** [collection[k] = v] *)
Definition setitem (collection : list (value * value)) (k v : value) : method value :=
  if Dict.hashable k then ret (VDict (Dict.setitem collection k v))
  else raise TypeError.

(** The [while] loop of [parse_collection], at most [fuel] rounds.
    [parse_json] stands for the method [self.parse_json]. *)
Fixpoint collection_loop (fuel : nat) (parse_json : method value)
    (end_char : string) (parse_func : method value) (delimiter : string)
    (collection : value) : method value :=
  match fuel with
  | O => out_of_fuel
  | S fuel' =>
      c <- get_char ;;
      if negb (char_is c end_char) && negb (is_none c) then
        key_or_value <- parse_func ;;
        collection' <-
          match collection with
          | VDict d =>
              skip_spaces_and_char delimiter ;;
              v <- parse_json ;;
              setitem d key_or_value v
          | VList l => ret (VList (l ++ [key_or_value]))
          | _ => raise AttributeError
          end ;;
        skip_spaces_and_char "," ;;
        collection_loop fuel' parse_json end_char parse_func delimiter collection'
      else
        advance 1 ;;
        ret collection
  end.

Definition parse_collection (fuel : nat) (parse_json : method value)
    (end_char : string) (parse_func : method value) (delimiter : string)
  : method value :=
  advance 1 ;;
  let collection := if String.eqb end_char "}" then VDict [] else VList [] in
  collection_loop fuel parse_json end_char parse_func delimiter collection.

Definition parse_array (fuel : nat) (parse_json : method value) : method value :=
  parse_collection fuel parse_json "]" parse_json ",".

(** [parse_map[char]] when [char in parse_map] *)
Fixpoint lookup (char : option ascii) (parse_map : list (string * method value))
  : option (method value) :=
  match parse_map with
  | [] => None
  | (k, f) :: rest => if char_is char k then Some f else lookup char rest
  end.

(** [char.isdigit()], which [None] does not have. *)
Definition isdigit (char : option ascii) : method bool :=
  match char with
  | Some c => ret (Py.isdigit c)
  | None => raise AttributeError
  end.

(** [fuel] bounds the depth of the calls and the rounds of each
    collection loop. *)
Fixpoint parse_json (fuel : nat) : method value :=
  match fuel with
  | O => out_of_fuel
  | S fuel' =>
      let parse_funcs :=
        [ parse_object;
          parse_array fuel' (parse_json fuel');
          parse_string;
          parse_number;
          parse_boolean_or_null ] in
      let strings := ["{"; "["; Py.dquote; "-"; "t"] in
      char <- get_char ;;
      let parse_map := combine strings parse_funcs in
      match lookup char parse_map with
      | Some f => f
      | None =>
          d <- isdigit char ;;
          if d then parse_number else raise_error UNEXPECTED_TOKEN
      end
  end.

(** A parser object on [s] at position 0. *)
Definition start (s : string) : t := new s 0.

End TidyJSONParser.

Import TidyJSONParser.
Local Open Scope method_scope.

(** The text [s] with each apostrophe read as a double quote: the JSON
    texts of the examples are written this way. *)
Fixpoint json (s : string) : string :=
  match s with
  | String c s' => String (if Ascii.eqb c "'" then Py.quote else c) (json s')
  | EmptyString => EmptyString
  end.

(** ** Texts as the specification reads them *)

Module Text.

(** The text from position [n] on. *)
Fixpoint drop (n : nat) (s : string) : string :=
  match n, s with
  | O, _ => s
  | S n', String _ s' => drop n' s'
  | S _, EmptyString => EmptyString
  end.

(** The first [n] characters. *)
Fixpoint take (n : nat) (s : string) : string :=
  match n, s with
  | S n', String c s' => String c (take n' s')
  | _, _ => EmptyString
  end.

Definition head (s : string) : option ascii :=
  match s with
  | String c _ => Some c
  | EmptyString => None
  end.

(** How many characters at the front of [s] satisfy [cond]. *)
Fixpoint run (cond : option ascii -> bool) (s : string) : nat :=
  match s with
  | String c s' => if cond (Some c) then S (run cond s') else O
  | EmptyString => O
  end.

(** The front of [s] up to, and without, the first character in [stop]. *)
Fixpoint take_until (stop : ascii -> bool) (s : string) : string :=
  match s with
  | String c s' => if stop c then EmptyString else String c (take_until stop s')
  | EmptyString => EmptyString
  end.

(** The text of the parser from its current position on. *)
Definition rest (self : TidyJSONParser.t) : string :=
  drop (Z.to_nat (index self)) (json_str self).

(** The characters that end a number: [','], [' '], ['}'] and [']']. *)
Definition number_stop (c : ascii) : bool :=
  existsb (Ascii.eqb c) [","; " "; "}"; "]"]%char.

(** The token of a number at the current position. *)
Definition number_token (self : TidyJSONParser.t) : string :=
  take_until number_stop (rest self).

(** The conversion of a number token: a float when it has a ['.'],
    an int otherwise; [None] when the text converts to neither. *)
Definition number_of (tok : string) : option value :=
  if Py.contains "." tok then option_map VFloat (Py.float tok)
  else option_map VInt (Py.int tok).

(** The characters of [s] at the positions [max(0, p - 10)] up to, and
    without, [min(len(s), p + 10)]. *)
Definition window (s : string) (p : Z) : string :=
  let lo := Z.max 0 (p - 10) in
  let hi := Z.min (Py.len s) (p + 10) in
  take (Z.to_nat (hi - lo)) (drop (Z.to_nat lo) s).

End Text.

(** The conditions of the loops of [parse_string] and [parse_number]. *)
Definition in_string (c : option ascii) : bool :=
  negb (char_is c Py.dquote) && negb (is_none c).

Definition in_number (c : option ascii) : bool :=
  negb (is_none c || char_is c "," || char_is c " " || char_is c "}" || char_is c "]").

(** The operations of the parser, and the parser object each leaves. *)
Inductive operation : Type :=
| Dispatch
| Collection (end_char delimiter : string)
| Array
| Object
| StringValue
| Number
| Literal
| Skip (char : string)
| Current.

Definition after (fuel : nat) (op : operation) (self : TidyJSONParser.t)
  : TidyJSONParser.t :=
  match op with
  | Dispatch => snd (parse_json fuel self)
  | Collection end_char delimiter =>
      snd (parse_collection fuel (parse_json fuel) end_char (parse_json fuel)
             delimiter self)
  | Array => snd (parse_array fuel (parse_json fuel) self)
  | Object => snd (parse_object self)
  | StringValue => snd (parse_string self)
  | Number => snd (parse_number self)
  | Literal => snd (parse_boolean_or_null self)
  | Skip char => snd (skip_spaces_and_char char self)
  | Current => snd (get_char self)
  end.

(** A method that keeps the text and never moves the index back. *)
Definition grows_at {A} (m : method A) (self : TidyJSONParser.t) : Prop :=
  json_str (snd (m self)) = json_str self /\ index self <= index (snd (m self)).

Definition grows {A} (m : method A) : Prop := forall self, grows_at m self.

(** [m'] does all that [m] does short of running out of fuel. *)
Definition extends {A} (m m' : method A) : Prop :=
  forall self r self', m self = (r, self') -> r <> OutOfFuel -> m' self = (r, self').

(** A method whose every [ErrorManager], with the parser object left at
    the raise, satisfies [P]. *)
Definition raises_only {A} (P : ErrorManager.t -> TidyJSONParser.t -> Prop)
    (m : method A) : Prop :=
  forall self e self', m self = (Raise (Error e), self') -> P e self'.

(** An [UNEXPECTED_TOKEN] at the position and on the text of the parser. *)
Definition unexpected_here (e : ErrorManager.t) (self : TidyJSONParser.t) : Prop :=
  e = ErrorManager.new UNEXPECTED_TOKEN (index self) (json_str self).

(** No [ErrorManager] at all. *)
Definition nothing (e : ErrorManager.t) (self : TidyJSONParser.t) : Prop := False.

(** ** Documents the dispatcher reads back *)

(** The values the dispatcher can read: the literal true, a number by
    its token, a text without a double quote, and an array of them.
    Objects and the literals false and null are not among them. *)
Inductive doc : Type :=
| DTrue
| DNum (tok : string)
| DStr (body : string)
| DArr (items : list doc).

Module Doc.

Section Elements.

Variable render : doc -> string.

(** The elements of an array with a comma between two of them, and the
    closing bracket. *)
Fixpoint elements (ds : list doc) : string :=
  match ds with
  | [] => "]"
  | d :: ds' =>
      (render d ++ (match ds' with [] => "" | _ :: _ => "," end) ++ elements ds')%string
  end.

End Elements.

(** The compact text of a document. *)
Fixpoint render (d : doc) : string :=
  match d with
  | DTrue => "true"
  | DNum tok => tok
  | DStr body => String Py.quote (body ++ Py.dquote)
  | DArr items => String "[" (elements render items)
  end.

(** The value a document stands for. *)
Fixpoint value_of (d : doc) : value :=
  match d with
  | DTrue => VBool true
  | DNum tok =>
      match Text.number_of tok with
      | Some v => v
      | None => VNone
      end
  | DStr body => VStr body
  | DArr items => VList (map value_of items)
  end.

(** A character a value can start with. *)
Definition value_start (c : ascii) : bool :=
  Ascii.eqb c "t" || Ascii.eqb c Py.quote || Ascii.eqb c "[" || Ascii.eqb c "-"
  || Py.isdigit c.

(** A number token: it starts with a minus sign or a digit, holds none
    of the characters that end a number, and converts. *)
Definition number_token_ok (tok : string) : bool :=
  match tok with
  | String c _ =>
      (Ascii.eqb c "-" || Py.isdigit c)
      && String.eqb (Text.take_until Text.number_stop tok) tok
      && match Text.number_of tok with Some _ => true | None => false end
  | EmptyString => false
  end.

Fixpoint wf (d : doc) : bool :=
  match d with
  | DTrue => true
  | DNum tok => number_token_ok tok
  | DStr body => negb (Py.contains Py.quote body)
  | DArr items => forallb wf items
  end.

(** What may follow the text of a document: after a number, the end of
    the input or a character that ends a number. *)
Definition follows (d : doc) (tail : string) : bool :=
  match d, tail with
  | DNum _, String c _ => Text.number_stop c
  | _, _ => true
  end.

(** The fuel that reading a document takes. *)
Fixpoint size (d : doc) : nat :=
  match d with
  | DArr items => S (S (list_sum (map size items)))
  | _ => 1%nat
  end.

(** The pairs of an object with a colon inside each and a comma between
    two of them, and the closing brace. *)
Fixpoint members (ps : list (doc * doc)) : string :=
  match ps with
  | [] => "}"
  | (k, v) :: ps' =>
      (render k ++ ":" ++ render v
       ++ (match ps' with [] => "" | _ :: _ => "," end) ++ members ps')%string
  end.

(** A key of an object: a text or the literal true. *)
Definition key_ok (k : doc) : bool :=
  match k with
  | DStr _ | DTrue => wf k
  | _ => false
  end.

(** The mapping the pairs build, one assignment after the other. *)
Definition mapping (d : list (value * value)) (ps : list (doc * doc))
  : list (value * value) :=
  fold_left (fun d p => Dict.setitem d (value_of (fst p)) (value_of (snd p))) ps d.

End Doc.

(** [starts lit r]: the text [r] begins with [lit]. *)
Fixpoint starts (lit r : string) : bool :=
  match lit, r with
  | EmptyString, _ => true
  | String a lit', String b r' => Ascii.eqb a b && starts lit' r'
  | String _ _, EmptyString => false
  end.


(** The position of the parser within its text. *)
Definition at_text (self : TidyJSONParser.t) (r : string) : Prop :=
  0 <= index self /\ Text.rest self = r.

(** The dispatcher reads the document [d] with [fuel]: on the text of
    [d], followed by what may follow it, it returns the value of [d]
    and leaves the index after the text of [d]. *)
Definition reads (fuel : nat) (d : doc) : Prop :=
  forall self tail,
    at_text self (Doc.render d ++ tail) ->
    Doc.follows d tail = true ->
    parse_json fuel self =
    (Return (Doc.value_of d),
     TidyJSONParser.new (json_str self) (index self + Py.len (Doc.render d))).

(** The value a mapping holds under the text [a]. *)
Fixpoint find (d : list (value * value)) (a : string) : option value :=
  match d with
  | [] => None
  | (VStr k, v) :: d' => if String.eqb k a then Some v else find d' a
  | _ :: d' => find d' a
  end.

(** The value of the last of the pairs whose key is the text [a]. *)
Fixpoint last_value (ps : list (doc * doc)) (a : string) : option value :=
  match ps with
  | [] => None
  | (k, v) :: ps' =>
      match last_value ps' a with
      | Some w => Some w
      | None =>
          match k with
          | DStr b => if String.eqb b a then Some (Doc.value_of v) else None
          | _ => None
          end
      end
  end.


(** The characters left from the index to the end of the text. *)
Definition remaining (self : TidyJSONParser.t) : nat :=
  Z.to_nat (Py.len (json_str self) - index self).

(** A separator: any run of commas and spaces, the empty one too. *)
Fixpoint separator (sep : string) : bool :=
  match sep with
  | EmptyString => true
  | String c sep' => (Ascii.eqb c "," || Ascii.eqb c " ") && separator sep'
  end.

(** The elements of an array, each followed by its own separator, and
    the closing bracket. *)
Fixpoint loose_elements (items : list (doc * string)) : string :=
  match items with
  | [] => "]"
  | (d, sep) :: rest => (Doc.render d ++ sep ++ loose_elements rest)%string
  end.

(** Every separator is one, and a number that is not the last element
    has a separator that is not empty. *)
Fixpoint spaced (items : list (doc * string)) : bool :=
  match items with
  | [] => true
  | (d, sep) :: rest =>
      separator sep
      && match d, sep, rest with
         | DNum _, EmptyString, _ :: _ => false
         | _, _, _ => true
         end
      && spaced rest
  end.

(** ** Facts about texts *)

Section TextFacts.

Import Text.

Lemma get_drop (n : nat) (s : string) : String.get n s = head (drop n s).
Proof.
  revert s; induction n as [|n IH]; intros [|c s]; simpl; auto.
Qed.

Lemma length_drop (n : nat) (s : string) :
  String.length (drop n s) = (String.length s - n)%nat.
Proof.
  revert s; induction n as [|n IH]; intros [|c s]; simpl; auto.
Qed.

Lemma drop_all (n : nat) (s : string) :
  (String.length s <= n)%nat -> drop n s = EmptyString.
Proof.
  intros H. pose proof (length_drop n s) as L.
  destruct (drop n s); [reflexivity | simpl in L; lia].
Qed.

Lemma drop_succ (n : nat) (s : string) : drop (S n) s = drop 1 (drop n s).
Proof.
  revert s; induction n as [|n IH]; intros [|c s]; try reflexivity.
  change (drop (S n) s = drop 1 (drop n s)). apply IH.
Qed.

Lemma drop_next (n : nat) (s : string) (c : ascii) (t : string) :
  drop n s = String c t -> drop (S n) s = t.
Proof.
  intros H. rewrite drop_succ, H. reflexivity.
Qed.

Lemma substring_take_drop (n m : nat) (s : string) :
  String.substring n m s = take m (drop n s).
Proof.
  revert m s; induction n as [|n IH]; intros m s.
  - revert s; induction m as [|m IHm]; intros [|c s]; simpl; auto.
    now rewrite IHm.
  - destruct s as [|c s]; simpl; auto. now destruct m.
Qed.

Lemma take_all (n : nat) (s : string) :
  (String.length s <= n)%nat -> take n s = s.
Proof.
  revert s; induction n as [|n IH]; intros [|c s] H; simpl in *; auto; try lia.
  rewrite IH by lia. reflexivity.
Qed.

Lemma run_le_length (cond : option ascii -> bool) (s : string) :
  (run cond s <= String.length s)%nat.
Proof.
  induction s as [|c s IH]; simpl; [lia|]. destruct (cond (Some c)); lia.
Qed.

Lemma take_run_until (cond : option ascii -> bool) (stop : ascii -> bool) (s : string) :
  (forall c, cond (Some c) = negb (stop c)) ->
  take (run cond s) s = take_until stop s.
Proof.
  intros H. induction s as [|c s IH]; simpl; auto.
  rewrite H. destruct (stop c); simpl; [reflexivity | now rewrite IH].
Qed.

Lemma length_take_until (stop : ascii -> bool) (cond : option ascii -> bool) (s : string) :
  (forall c, cond (Some c) = negb (stop c)) ->
  String.length (take_until stop s) = run cond s.
Proof.
  intros H. induction s as [|c s IH]; simpl; auto.
  rewrite H. destruct (stop c); simpl; [reflexivity | now rewrite IH].
Qed.

Lemma run_no_stop (cond : option ascii -> bool) (c : ascii) (s : string) :
  (forall d, cond (Some d) = negb (Ascii.eqb d c)) ->
  Py.contains c s = false -> run cond s = String.length s.
Proof.
  intros H. induction s as [|d s IH]; simpl; auto.
  intros K. apply orb_false_iff in K as [K1 K2].
  rewrite H, K1. simpl. now rewrite IH.
Qed.

Lemma char_is_ascii (a b : ascii) :
  char_is (Some a) (String b EmptyString) = Ascii.eqb a b.
Proof.
  simpl. apply andb_true_r.
Qed.

(** [s[i : i + r]] is the first [r] characters from position [i], for a
    position that is not negative and a count within the text. *)
Lemma slice_take_drop (s : string) (i : Z) (r : nat) :
  0 <= i -> (r <= String.length (drop (Z.to_nat i) s))%nat ->
  Py.slice s i (i + Z.of_nat r) = take r (drop (Z.to_nat i) s).
Proof.
  intros Hi Hr. unfold Py.slice, Py.slice_index, Py.len.
  rewrite length_drop in Hr.
  destruct (i <? 0) eqn:E1; [apply Z.ltb_lt in E1; lia|].
  destruct (i + Z.of_nat r <? 0) eqn:E2; [apply Z.ltb_lt in E2; lia|].
  rewrite substring_take_drop.
  destruct (Z.le_gt_cases i (Z.of_nat (String.length s))) as [L|G].
  - rewrite (Z.min_l i) by lia. rewrite Z.min_l by lia.
    replace (Z.to_nat (i + Z.of_nat r - i)) with r by lia. reflexivity.
  - assert (r = O) by lia. subst r.
    rewrite Z.min_r by lia. rewrite Z.min_r by lia.
    rewrite Z.sub_diag. simpl.
    destruct (drop (Z.to_nat (Z.of_nat (String.length s))) s); reflexivity.
Qed.

End TextFacts.

(** ** Facts about the cursor *)

Lemma self_eta (self : TidyJSONParser.t) :
  TidyJSONParser.new (json_str self) (index self) = self.
Proof. destruct self; reflexivity. Qed.

Lemma get_char_cases (self : TidyJSONParser.t) :
  (exists c, get_char self = (Return c, self)) \/
  get_char self = (Raise IndexError, self).
Proof.
  unfold get_char, bind, get_self.
  destruct (index self <? Py.len (json_str self)).
  - destruct (Py.getitem (json_str self) (index self));
      [left; eexists; reflexivity | right; reflexivity].
  - left; eexists; reflexivity.
Qed.

Lemma get_char_rest (self : TidyJSONParser.t) :
  0 <= index self ->
  get_char self = (Return (Text.head (Text.rest self)), self).
Proof.
  intros H. unfold get_char, bind, get_self, Text.rest.
  destruct (index self <? Py.len (json_str self)) eqn:E.
  - unfold Py.getitem. rewrite E, (proj2 (Z.leb_le _ _) H). simpl.
    rewrite get_drop.
    pose proof (length_drop (Z.to_nat (index self)) (json_str self)) as L.
    apply Z.ltb_lt in E. unfold Py.len in E.
    destruct (Text.drop (Z.to_nat (index self)) (json_str self));
      [simpl in L; lia | reflexivity].
  - apply Z.ltb_ge in E. unfold Py.len in E.
    rewrite drop_all by lia. reflexivity.
Qed.

Lemma get_char_end (self : TidyJSONParser.t) :
  Py.len (json_str self) <= index self -> get_char self = (Return None, self).
Proof.
  intros H. unfold get_char, bind, get_self.
  rewrite (proj2 (Z.ltb_ge _ _) H). reflexivity.
Qed.

(** From a position that is not negative, the loop stops after the run
    of characters that satisfy its condition. *)
Lemma advance_while_run (k : nat) (cond : option ascii -> bool) (self : TidyJSONParser.t) :
  0 <= index self -> cond None = false ->
  (Text.run cond (Text.rest self) < k)%nat ->
  advance_while k cond self =
  (Return tt,
   TidyJSONParser.new (json_str self)
     (index self + Z.of_nat (Text.run cond (Text.rest self)))).
Proof.
  intros Hi Hn. revert self Hi.
  induction k as [|k IH]; intros self Hi Hk; [lia|].
  simpl. unfold bind at 1. rewrite (get_char_rest self Hi).
  unfold Text.rest in *.
  destruct (Text.drop (Z.to_nat (index self)) (json_str self)) as [|c t] eqn:D; simpl.
  - rewrite Hn. unfold ret. rewrite Z.add_0_r, self_eta. reflexivity.
  - simpl in Hk. destruct (cond (Some c)) eqn:C.
    + unfold bind, advance, get_self, set_index. simpl.
      assert (N : Z.to_nat (index self + 1) = S (Z.to_nat (index self))) by lia.
      pose proof (drop_next _ _ _ _ D) as D'. rewrite <- N in D'.
      rewrite IH; simpl; try lia.
      * rewrite D'. f_equal. f_equal. lia.
      * rewrite D'. lia.
    + unfold ret. rewrite Z.add_0_r, self_eta. reflexivity.
Qed.

Lemma scan_while_run (cond : option ascii -> bool) (self : TidyJSONParser.t) :
  0 <= index self -> cond None = false ->
  scan_while cond self =
  (Return tt,
   TidyJSONParser.new (json_str self)
     (index self + Z.of_nat (Text.run cond (Text.rest self)))).
Proof.
  intros Hi Hn. unfold scan_while. apply advance_while_run; auto.
  unfold budget, Text.rest, Py.len.
  pose proof (run_le_length cond (Text.drop (Z.to_nat (index self)) (json_str self))) as L.
  rewrite length_drop in L. lia.
Qed.

(** When the loop returns, the current character fails its condition. *)
Lemma advance_while_exit (k : nat) (cond : option ascii -> bool)
    (self self' : TidyJSONParser.t) :
  advance_while k cond self = (Return tt, self') ->
  exists c, get_char self' = (Return c, self') /\ cond c = false.
Proof.
  revert self. induction k as [|k IH]; intros self H; simpl in H; [discriminate|].
  unfold bind at 1 in H.
  destruct (get_char_cases self) as [[c G]|G]; rewrite G in H; [|discriminate].
  destruct (cond c) eqn:C.
  - unfold bind, advance, get_self, set_index in H. simpl in H.
    apply IH in H. exact H.
  - unfold ret in H. inversion H; subst. eauto.
Qed.

(** The budget of a scanning loop is never the reason it stops. *)
Lemma advance_while_fuel (k : nat) (cond : option ascii -> bool) (self : TidyJSONParser.t) :
  cond None = false ->
  (Z.to_nat (Py.len (json_str self) - index self) < k)%nat ->
  fst (advance_while k cond self) <> OutOfFuel.
Proof.
  intros Hn. revert self. induction k as [|k IH]; intros self Hk; [lia|].
  simpl. unfold bind at 1.
  destruct (index self <? Py.len (json_str self)) eqn:E.
  - destruct (get_char_cases self) as [[c G]|G]; rewrite G; [|simpl; discriminate].
    destruct (cond c); [|simpl; discriminate].
    unfold bind, advance, get_self, set_index. simpl.
    apply IH. simpl. apply Z.ltb_lt in E. lia.
  - apply Z.ltb_ge in E. rewrite (get_char_end self E), Hn. simpl. discriminate.
Qed.

Lemma scan_while_fuel (cond : option ascii -> bool) (self : TidyJSONParser.t) :
  cond None = false -> fst (scan_while cond self) <> OutOfFuel.
Proof.
  intros Hn. unfold scan_while.
  apply advance_while_fuel; [assumption | unfold budget; lia].
Qed.

(** ** The index never moves back *)

Lemma grows_at_bind {A B} (m : method A) (k : A -> method B) (self : TidyJSONParser.t) :
  grows_at m self ->
  (forall a self', m self = (Return a, self') -> grows_at (k a) self') ->
  grows_at (bind m k) self.
Proof.
  unfold grows_at, bind. intros [H1 H2] Hk.
  destruct (m self) as [[a|e|] self'] eqn:E; simpl in *; auto.
  destruct (Hk a self' eq_refl) as [K1 K2]. split; [congruence | lia].
Qed.

Lemma grows_bind {A B} (m : method A) (k : A -> method B) :
  grows m -> (forall a, grows (k a)) -> grows (bind m k).
Proof.
  intros Hm Hk self. apply grows_at_bind; [apply Hm | intros a self' _; apply Hk].
Qed.

Lemma grows_ret {A} (a : A) : grows (ret a).
Proof. intros self; split; simpl; [reflexivity | lia]. Qed.

Lemma grows_raise {A} (e : exn) : grows (@raise A e).
Proof. intros self; split; simpl; [reflexivity | lia]. Qed.

Lemma grows_out_of_fuel {A} : grows (@out_of_fuel A).
Proof. intros self; split; simpl; [reflexivity | lia]. Qed.

Lemma grows_get_self : grows get_self.
Proof. intros self; split; simpl; [reflexivity | lia]. Qed.

Lemma grows_advance (n : Z) : 0 <= n -> grows (advance n).
Proof. intros H self; split; simpl; [reflexivity | lia]. Qed.

Lemma grows_raise_error {A} (kind : TidyErrorType) : grows (@raise_error A kind).
Proof. intros self; split; simpl; [reflexivity | lia]. Qed.

Lemma grows_get_char : grows get_char.
Proof.
  intros self. unfold grows_at.
  destruct (get_char_cases self) as [[c G]|G]; rewrite G; simpl; split; lia || reflexivity.
Qed.

Create HintDb grows.

#[local] Hint Resolve grows_ret grows_raise grows_out_of_fuel grows_get_self
  grows_raise_error grows_get_char : grows.

Ltac grows_step :=
  match goal with
  | |- grows (bind _ _) => apply grows_bind; [| intros ?]
  | |- grows (advance _) => apply grows_advance; try lia
  | |- grows (if ?b then _ else _) => destruct b
  | |- grows (match ?x with _ => _ end) => destruct x
  | |- grows _ => solve [auto with grows]
  end.

Lemma grows_advance_while (n : nat) (cond : option ascii -> bool) :
  grows (advance_while n cond).
Proof.
  induction n as [|n IH]; simpl; repeat grows_step.
Qed.

Lemma grows_scan_while (cond : option ascii -> bool) : grows (scan_while cond).
Proof.
  intros self. unfold scan_while. apply grows_advance_while.
Qed.

Lemma grows_skip_spaces_and_char (char : string) : grows (skip_spaces_and_char char).
Proof. apply grows_scan_while. Qed.

#[local] Hint Resolve grows_scan_while grows_skip_spaces_and_char : grows.

Lemma grows_parse_string : grows parse_string.
Proof.
  intros self.
  change (grows_at
            (set_index (index self + 1) ;;
             scan_while (fun c => negb (char_is c Py.dquote) && negb (is_none c)) ;;
             self' <- get_self ;;
             advance 1 ;;
             ret (VStr (Py.slice (json_str self') (index self + 1) (index self'))))
            self).
  apply grows_at_bind; [split; simpl; [reflexivity | lia]|].
  intros _ s1 _. revert s1.
  change (grows
            (scan_while (fun c => negb (char_is c Py.dquote) && negb (is_none c)) ;;
             self' <- get_self ;;
             advance 1 ;;
             ret (VStr (Py.slice (json_str self') (index self + 1) (index self'))))).
  repeat grows_step.
Qed.

Lemma grows_parse_number : grows parse_number.
Proof. unfold parse_number. repeat grows_step. Qed.

Lemma grows_first_literal (literals : list (string * value)) :
  grows (first_literal literals).
Proof.
  induction literals as [|[literal v] rest IH]; simpl; repeat grows_step; auto.
  unfold Py.len. lia.
Qed.

Lemma grows_parse_boolean_or_null : grows parse_boolean_or_null.
Proof. apply grows_first_literal. Qed.

Lemma grows_parse_object : grows parse_object.
Proof. apply grows_ret. Qed.

Lemma grows_setitem (d : list (value * value)) (k v : value) : grows (setitem d k v).
Proof. unfold setitem. repeat grows_step. Qed.

#[local] Hint Resolve grows_parse_string grows_parse_number
  grows_parse_boolean_or_null grows_parse_object grows_setitem : grows.

Lemma grows_collection_loop (fuel : nat) (parse_json parse_func : method value)
    (end_char delimiter : string) (collection : value) :
  grows parse_json -> grows parse_func ->
  grows (collection_loop fuel parse_json end_char parse_func delimiter collection).
Proof.
  intros Hj Hf. revert collection.
  induction fuel as [|fuel IH]; intros collection; simpl; repeat grows_step; auto.
Qed.

Lemma grows_parse_collection (fuel : nat) (parse_json parse_func : method value)
    (end_char delimiter : string) :
  grows parse_json -> grows parse_func ->
  grows (parse_collection fuel parse_json end_char parse_func delimiter).
Proof.
  intros Hj Hf. unfold parse_collection. repeat grows_step.
  apply grows_collection_loop; assumption.
Qed.

Lemma grows_parse_json (fuel : nat) : grows (parse_json fuel).
Proof.
  induction fuel as [|fuel IH]; [apply grows_out_of_fuel|].
  assert (Ha : grows (parse_array fuel (parse_json fuel)))
    by (apply grows_parse_collection; assumption).
  simpl. apply grows_bind; [apply grows_get_char|]. intros char.
  set (f := parse_array fuel (parse_json fuel)) in *.
  simpl.
  repeat match goal with
         | |- grows (match (if ?b then _ else _) with _ => _ end) => destruct b
         end; auto with grows.
  unfold isdigit. repeat grows_step.
Qed.

(** ** The diagnostics a method can raise *)

Section Diagnostics.

Variable P : ErrorManager.t -> TidyJSONParser.t -> Prop.

Lemma raises_only_bind {A B} (m : method A) (k : A -> method B) :
  raises_only P m -> (forall a, raises_only P (k a)) ->
  raises_only P (bind m k).
Proof.
  unfold raises_only, bind. intros Hm Hk self e self' H.
  destruct (m self) as [[a|x|] s1] eqn:E.
  - eapply Hk; eauto.
  - inversion H; subst. eapply Hm; eauto.
  - discriminate.
Qed.

Lemma raises_only_get_char : raises_only P get_char.
Proof.
  intros self e self' H.
  destruct (get_char_cases self) as [[c G]|G]; rewrite G in H; discriminate.
Qed.

End Diagnostics.

Create HintDb diagnostics.

#[local] Hint Resolve raises_only_get_char : diagnostics.

Ltac quiet := intros ? ? ? H; discriminate H.

Ltac diagnostics_step :=
  match goal with
  | |- raises_only _ (bind _ _) => apply raises_only_bind; [| intros ?]
  | |- raises_only _ (ret _) => quiet
  | |- raises_only _ (raise _) => quiet
  | |- raises_only _ out_of_fuel => quiet
  | |- raises_only _ get_self => quiet
  | |- raises_only _ (set_index _) => quiet
  | |- raises_only _ (if ?b then _ else _) => destruct b
  | |- raises_only _ (match ?x with _ => _ end) => destruct x
  | |- raises_only _ _ => solve [auto with diagnostics]
  end.

Section Quiet.

Variable P : ErrorManager.t -> TidyJSONParser.t -> Prop.

Lemma raises_only_advance (n : Z) : raises_only P (advance n).
Proof. unfold advance. repeat diagnostics_step. Qed.

Hint Resolve raises_only_advance : diagnostics.

Lemma raises_only_advance_while (n : nat) (cond : option ascii -> bool) :
  raises_only P (advance_while n cond).
Proof. induction n as [|n IH]; simpl; repeat diagnostics_step. Qed.

Lemma raises_only_scan_while (cond : option ascii -> bool) :
  raises_only P (scan_while cond).
Proof.
  intros self e self' H. unfold scan_while in H.
  eapply raises_only_advance_while; eauto.
Qed.

Lemma raises_only_skip_spaces_and_char (char : string) :
  raises_only P (skip_spaces_and_char char).
Proof. apply raises_only_scan_while. Qed.

Hint Resolve raises_only_scan_while : diagnostics.

Lemma raises_only_parse_string : raises_only P parse_string.
Proof. unfold parse_string. repeat diagnostics_step. Qed.

Lemma raises_only_parse_number : raises_only P parse_number.
Proof. unfold parse_number. repeat diagnostics_step. Qed.

Lemma raises_only_setitem (d : list (value * value)) (k v : value) :
  raises_only P (setitem d k v).
Proof. unfold setitem. repeat diagnostics_step. Qed.

End Quiet.

#[local] Hint Resolve raises_only_advance raises_only_scan_while
  raises_only_skip_spaces_and_char raises_only_parse_string
  raises_only_parse_number raises_only_setitem : diagnostics.

Lemma unexpected_raise_error {A} :
  raises_only unexpected_here (@raise_error A UNEXPECTED_TOKEN).
Proof.
  intros self e self' H. unfold raise_error, bind, get_self, raise in H.
  inversion H; subst. reflexivity.
Qed.

#[local] Hint Resolve unexpected_raise_error : diagnostics.

Lemma unexpected_first_literal (literals : list (string * value)) :
  raises_only unexpected_here (first_literal literals).
Proof.
  induction literals as [|[literal v] rest IH]; simpl; repeat diagnostics_step.
Qed.

Lemma unexpected_parse_boolean_or_null :
  raises_only unexpected_here parse_boolean_or_null.
Proof. apply unexpected_first_literal. Qed.

#[local] Hint Resolve unexpected_parse_boolean_or_null : diagnostics.

Lemma unexpected_collection_loop (fuel : nat) (parse_json parse_func : method value)
    (end_char delimiter : string) (collection : value) :
  raises_only unexpected_here parse_json ->
  raises_only unexpected_here parse_func ->
  raises_only unexpected_here
    (collection_loop fuel parse_json end_char parse_func delimiter collection).
Proof.
  intros Hj Hf. revert collection.
  induction fuel as [|fuel IH]; intros collection; simpl; repeat diagnostics_step.
Qed.

Lemma unexpected_parse_collection (fuel : nat) (parse_json parse_func : method value)
    (end_char delimiter : string) :
  raises_only unexpected_here parse_json ->
  raises_only unexpected_here parse_func ->
  raises_only unexpected_here
    (parse_collection fuel parse_json end_char parse_func delimiter).
Proof.
  intros Hj Hf. unfold parse_collection. repeat diagnostics_step.
  apply unexpected_collection_loop; assumption.
Qed.

Lemma unexpected_parse_json (fuel : nat) :
  raises_only unexpected_here (parse_json fuel).
Proof.
  induction fuel as [|fuel IH]; [quiet|].
  assert (Ha : raises_only unexpected_here (parse_array fuel (parse_json fuel)))
    by (apply unexpected_parse_collection; assumption).
  simpl. apply raises_only_bind; [apply raises_only_get_char|]. intros char.
  set (f := parse_array fuel (parse_json fuel)) in *.
  simpl.
  repeat match goal with
         | |- raises_only _ (match (if ?b then _ else _) with _ => _ end) => destruct b
         end; auto with diagnostics.
  - unfold parse_object. quiet.
  - unfold isdigit. repeat diagnostics_step.
Qed.

(** ** More fuel changes no result *)

Lemma extends_refl {A} (m : method A) : extends m m.
Proof. intros self r self' H _. exact H. Qed.

Lemma extends_bind {A B} (m m' : method A) (k k' : A -> method B) :
  extends m m' -> (forall a, extends (k a) (k' a)) ->
  extends (bind m k) (bind m' k').
Proof.
  intros Hm Hk self r self' H Hr. unfold bind in *.
  destruct (m self) as [[a|e|] s1] eqn:E.
  - rewrite (Hm _ _ _ E) by discriminate. apply Hk; assumption.
  - rewrite (Hm _ _ _ E) by discriminate. assumption.
  - inversion H; subst. congruence.
Qed.

Lemma collection_loop_extends (n n' : nat) (pj pj' pf pf' : method value)
    (end_char delimiter : string) :
  (n <= n')%nat -> extends pj pj' -> extends pf pf' ->
  forall collection,
    extends (collection_loop n pj end_char pf delimiter collection)
            (collection_loop n' pj' end_char pf' delimiter collection).
Proof.
  intros Hn Hj Hf. revert n' Hn.
  induction n as [|n IH]; intros n' Hn collection.
  - intros self r self' H Hr. inversion H; subst. congruence.
  - destruct n' as [|n']; [lia|]. simpl.
    apply extends_bind; [apply extends_refl|]. intros c.
    destruct (negb (char_is c end_char) && negb (is_none c)); [|apply extends_refl].
    apply extends_bind; [exact Hf|]. intros key_or_value.
    apply extends_bind.
    + destruct collection; try apply extends_refl.
      apply extends_bind; [apply extends_refl|]. intros _.
      apply extends_bind; [exact Hj|]. intros v. apply extends_refl.
    + intros collection'.
      apply extends_bind; [apply extends_refl|]. intros _.
      apply IH. lia.
Qed.

Lemma parse_json_extends (fuel fuel' : nat) :
  (fuel <= fuel')%nat -> extends (parse_json fuel) (parse_json fuel').
Proof.
  revert fuel'. induction fuel as [|fuel IH]; intros fuel' Hle.
  - intros self r self' H Hr. inversion H; subst. congruence.
  - destruct fuel' as [|fuel']; [lia|].
    assert (Hj : extends (parse_json fuel) (parse_json fuel')) by (apply IH; lia).
    assert (Ha : extends (parse_array fuel (parse_json fuel))
                         (parse_array fuel' (parse_json fuel'))).
    { unfold parse_array, parse_collection.
      apply extends_bind; [apply extends_refl|]. intros _.
      apply collection_loop_extends; [lia | assumption | assumption]. }
    simpl. apply extends_bind; [apply extends_refl|]. intros char.
    set (f := parse_array fuel (parse_json fuel)) in *.
    set (f' := parse_array fuel' (parse_json fuel')) in *.
    simpl.
    repeat match goal with
           | |- extends (match (if ?b then _ else _) with _ => _ end) _ => destruct b
           end; try apply extends_refl.
    exact Ha.
Qed.

(** A call that returns or raises with some fuel does the same with any
    larger fuel. *)
Lemma parse_json_fuel (fuel fuel' : nat) (self self' : TidyJSONParser.t)
    (r : outcome value) :
  (fuel <= fuel')%nat ->
  parse_json fuel self = (r, self') -> r <> OutOfFuel ->
  parse_json fuel' self = (r, self').
Proof.
  intros Hle H Hr. exact (parse_json_extends fuel fuel' Hle self r self' H Hr).
Qed.

(** ** The scalar parsers in closed form *)

Lemma bind_return {A B} (m : method A) (k : A -> method B)
    (self self' : TidyJSONParser.t) (a : A) :
  m self = (Return a, self') -> bind m k self = k a self'.
Proof. intros H. unfold bind. rewrite H. reflexivity. Qed.

Lemma in_number_stop (c : ascii) : in_number (Some c) = negb (Text.number_stop c).
Proof.
  unfold in_number, Text.number_stop. rewrite !char_is_ascii. simpl.
  destruct (Ascii.eqb c ","), (Ascii.eqb c " "), (Ascii.eqb c "}"), (Ascii.eqb c "]");
    reflexivity.
Qed.

Lemma in_string_quote (c : ascii) : in_string (Some c) = negb (Ascii.eqb c Py.quote).
Proof.
  unfold in_string, Py.dquote. rewrite char_is_ascii. simpl. apply andb_true_r.
Qed.

(** [parse_string] from a position that is not negative: the text after
    the current character up to the next double quote or the end of the
    text. *)
Lemma parse_string_run (self : TidyJSONParser.t) :
  0 <= index self ->
  let start := index self + 1 in
  let n := Text.run in_string (Text.drop (Z.to_nat start) (json_str self)) in
  parse_string self =
  (Return (VStr (Text.take n (Text.drop (Z.to_nat start) (json_str self)))),
   TidyJSONParser.new (json_str self) (start + Z.of_nat n + 1)).
Proof.
  intros Hi start n.
  unfold parse_string.
  rewrite (bind_return _ _ self self self) by reflexivity.
  rewrite (bind_return _ _ self (TidyJSONParser.new (json_str self) start) tt)
    by reflexivity.
  fold in_string.
  rewrite (bind_return _ _ _ _ tt
             (scan_while_run in_string (TidyJSONParser.new (json_str self) start)
                ltac:(simpl; lia) eq_refl)).
  unfold Text.rest. cbn [json_str index]. fold n.
  unfold bind, get_self, advance, set_index, ret. simpl.
  rewrite slice_take_drop; [reflexivity | lia | apply run_le_length].
Qed.

(** [parse_number] from a position that is not negative: the token up to
    the next stop character or the end of the text, converted. *)
Lemma parse_number_token (self : TidyJSONParser.t) :
  0 <= index self ->
  parse_number self =
  (match Text.number_of (Text.number_token self) with
   | Some v => Return v
   | None => Raise ValueError
   end,
   TidyJSONParser.new (json_str self)
     (index self + Py.len (Text.number_token self))).
Proof.
  intros Hi. unfold parse_number.
  rewrite (bind_return _ _ self self self) by reflexivity.
  fold in_number.
  rewrite (bind_return _ _ _ _ tt (scan_while_run in_number self Hi eq_refl)).
  unfold bind at 1, get_self. cbn [json_str index].
  rewrite slice_take_drop; [| assumption | apply run_le_length].
  unfold Text.number_token, Text.number_of.
  rewrite (take_run_until in_number Text.number_stop) by apply in_number_stop.
  unfold Py.len.
  rewrite (length_take_until Text.number_stop in_number) by apply in_number_stop.
  fold (Text.rest self).
  destruct (Py.contains "." (Text.take_until Text.number_stop (Text.rest self))).
  - destruct (Py.float _); reflexivity.
  - destruct (Py.int _); reflexivity.
Qed.

(** ** The context snippet of a diagnostic *)

Lemma slice_window (s : string) (lo hi : Z) :
  0 <= lo -> 0 <= hi <= Py.len s ->
  Py.slice s lo hi = Text.take (Z.to_nat (hi - lo)) (Text.drop (Z.to_nat lo) s).
Proof.
  intros Hlo [Hhi Hn]. unfold Py.slice, Py.slice_index.
  destruct (lo <? 0) eqn:E1; [apply Z.ltb_lt in E1; lia|].
  destruct (hi <? 0) eqn:E2; [apply Z.ltb_lt in E2; lia|].
  rewrite substring_take_drop, (Z.min_l hi) by lia.
  destruct (Z.le_gt_cases lo (Py.len s)) as [L|G].
  - rewrite Z.min_l by lia. reflexivity.
  - rewrite Z.min_r by lia.
    replace (Z.to_nat (hi - Py.len s)) with O by lia.
    replace (Z.to_nat (hi - lo)) with O by lia.
    reflexivity.
Qed.

(** C6. For every error kind, position [p] and source text [s], the
    context snippet of the diagnostic built from them is the slice
    [s[max(0, p - 10) : min(len(s), p + 10)]]; for a position that is not
    negative these are the characters of [s] from [max(0, p - 10)] up to
    [min(len(s), p + 10)]; and on a source of five characters with the
    error at position 4 the snippet is the whole source. *)
Theorem error_context_is_clipped_window :
  (forall kind p s,
      ErrorManager.error_context (ErrorManager.new kind p s) =
      Py.slice s (Z.max 0 (p - 10)) (Z.min (Py.len s) (p + 10))) /\
  (forall kind p s,
      0 <= p ->
      ErrorManager.error_context (ErrorManager.new kind p s) = Text.window s p) /\
  (forall kind s,
      String.length s = 5%nat ->
      ErrorManager.error_context (ErrorManager.new kind 4 s) = s).
Proof.
  assert (W : forall kind p s, 0 <= p ->
            ErrorManager.error_context (ErrorManager.new kind p s) = Text.window s p).
  { intros kind p s Hp.
    unfold ErrorManager.error_context, ErrorManager._get_context, Text.window.
    cbn [ErrorManager.json_str ErrorManager.position].
    apply slice_window; unfold Py.len; lia. }
  split; [reflexivity | split; [exact W|]].
  intros kind s H5. rewrite W by lia.
  unfold Text.window, Py.len. rewrite H5.
  change (Z.to_nat (Z.min (Z.of_nat 5) (4 + 10) - Z.max 0 (4 - 10))) with 5%nat.
  change (Text.drop (Z.to_nat (Z.max 0 (4 - 10))) s) with s.
  apply take_all. lia.
Qed.

Lemma error_context_is_clipped_window_witness :
  ErrorManager.error_context (ErrorManager.new MISSING_QUOTE 12 "0123456789abcdefghijklmnopqrstuvwxyz")
  = "23456789abcdefghijkl" /\
  ErrorManager.error_context (ErrorManager.new UNEXPECTED_TOKEN 4 "[1,2%") = "[1,2%".
Proof.
  split.
  - rewrite (proj1 (proj2 error_context_is_clipped_window)) by lia. reflexivity.
  - apply (proj2 (proj2 error_context_is_clipped_window)). reflexivity.
Defined.

(** ** Numbers *)

(** C7. From a position that is not negative [parse_number] scans the
    characters up to the first of end of input, [','], [' '], ['}'] and
    [']'], leaves the index after them, and returns the scanned text
    converted by [float] when it contains a ['.'] and by [int] otherwise;
    the texts 3, 3.5 and -7 give the int 3, the float 3.5 (7 * 2^-1) and
    the int -7. *)
Theorem parse_number_scans_and_converts :
  (forall self,
      0 <= index self ->
      parse_number self =
      (match Text.number_of (Text.number_token self) with
       | Some v => Return v
       | None => Raise ValueError
       end,
       TidyJSONParser.new (json_str self)
         (index self + Py.len (Text.number_token self)))) /\
  parse_number (start "3") = (Return (VInt 3), TidyJSONParser.new "3" 1) /\
  parse_number (start "3.5") =
    (Return (VFloat (Py.binary64 false 7 (-1))), TidyJSONParser.new "3.5" 3) /\
  parse_number (start "-7") = (Return (VInt (-7)), TidyJSONParser.new "-7" 2).
Proof.
  split; [exact parse_number_token|].
  repeat split; vm_compute; reflexivity.
Qed.

Lemma parse_number_scans_and_converts_witness :
  parse_number (TidyJSONParser.new "[12,3.25]" 1) =
    (Return (VInt 12), TidyJSONParser.new "[12,3.25]" 3) /\
  parse_number (TidyJSONParser.new "[12,3.25]" 4) =
    (Return (VFloat (Py.binary64 false 13 (-2))), TidyJSONParser.new "[12,3.25]" 8).
Proof.
  split.
  - rewrite (proj1 parse_number_scans_and_converts) by (simpl; lia).
    vm_compute. reflexivity.
  - rewrite (proj1 parse_number_scans_and_converts) by (simpl; lia).
    vm_compute. reflexivity.
Defined.

(** C8, as the code has it: a lone minus sign is refused by [int] with a
    [ValueError], which [parse_number] lets through; no [ErrorManager] of
    kind [INVALID_CHARACTER] is raised. *)
Lemma lone_minus_is_a_ValueError :
  parse_number (start "-") = (Raise ValueError, TidyJSONParser.new "-" 1) /\
  fst (parse_number (start "-")) <>
    Raise (Error (ErrorManager.new INVALID_CHARACTER 0 "-")).
Proof.
  split; [vm_compute; reflexivity|].
  vm_compute. discriminate.
Qed.

(** C8, amended. When the scanned token converts to no number,
    [parse_number] fails with the [ValueError] of the conversion and
    leaves the index after the token; it raises no [ErrorManager] of any
    kind, so no position is reported.  A lone minus sign and a token
    with two decimal points are such tokens. *)
Theorem parse_number_conversion_failure :
  (forall self,
      0 <= index self ->
      Text.number_of (Text.number_token self) = None ->
      parse_number self =
      (Raise ValueError,
       TidyJSONParser.new (json_str self)
         (index self + Py.len (Text.number_token self)))) /\
  (forall self e self', parse_number self <> (Raise (Error e), self')) /\
  parse_number (start "-") = (Raise ValueError, TidyJSONParser.new "-" 1) /\
  parse_number (start "1.2.3") = (Raise ValueError, TidyJSONParser.new "1.2.3" 5).
Proof.
  split; [|split].
  - intros self Hi Hn. rewrite parse_number_token by assumption.
    rewrite Hn. reflexivity.
  - intros self e self' H. exact (raises_only_parse_number nothing self e self' H).
  - split; vm_compute; reflexivity.
Qed.

Lemma parse_number_conversion_failure_witness :
  parse_number (TidyJSONParser.new "[1,-]" 3) =
    (Raise ValueError, TidyJSONParser.new "[1,-]" 4).
Proof.
  rewrite (proj1 parse_number_conversion_failure);
    [reflexivity | simpl; lia | vm_compute; reflexivity].
Defined.

(** ** Strings *)

(** C3, as the code has it: on the text of a double quote followed by
    abc, [parse_string] returns abc and leaves the index at 5; it raises
    no [ErrorManager]. *)
Lemma unterminated_string_is_returned :
  parse_string (start (json "'abc")) = (Return (VStr "abc"), TidyJSONParser.new (json "'abc") 5) /\
  ~ (exists e, fst (parse_string (start (json "'abc"))) = Raise (Error e)).
Proof.
  split; [vm_compute; reflexivity|].
  intros [e H]. vm_compute in H. discriminate.
Qed.

(** C3, amended. When the current character is a double quote and no
    double quote follows it before the end of the input, [parse_string]
    raises nothing: it returns the text after the opening quote up to
    the end of the input and leaves the index one past the length of the
    text.  [parse_string] raises no [ErrorManager] of any kind. *)
Theorem parse_string_unterminated :
  (forall self,
      0 <= index self ->
      get_char self = (Return (Some Py.quote), self) ->
      Py.contains Py.quote
        (Py.slice (json_str self) (index self + 1) (Py.len (json_str self))) = false ->
      parse_string self =
      (Return (VStr (Py.slice (json_str self) (index self + 1) (Py.len (json_str self)))),
       TidyJSONParser.new (json_str self) (Py.len (json_str self) + 1))) /\
  (forall self e self', parse_string self <> (Raise (Error e), self')) /\
  parse_string (start (json "'abc")) = (Return (VStr "abc"), TidyJSONParser.new (json "'abc") 5).
Proof.
  split; [|split].
  - intros self Hi Hq Hc.
    assert (Hlt : index self < Py.len (json_str self)).
    { destruct (Z.lt_ge_cases (index self) (Py.len (json_str self))) as [L|G]; auto.
      rewrite (get_char_end self) in Hq by lia. discriminate. }
    pose proof (length_drop (Z.to_nat (index self + 1)) (json_str self)) as L.
    assert (S : Py.slice (json_str self) (index self + 1) (Py.len (json_str self)) =
                Text.drop (Z.to_nat (index self + 1)) (json_str self)).
    { rewrite slice_window by lia. apply take_all. unfold Py.len in *. lia. }
    rewrite S in *.
    rewrite parse_string_run by assumption.
    rewrite (run_no_stop in_string Py.quote _ in_string_quote Hc).
    rewrite take_all by lia.
    f_equal. f_equal. unfold Py.len in *. lia.
  - intros self e self' H. exact (raises_only_parse_string nothing self e self' H).
  - vm_compute. reflexivity.
Qed.

Lemma parse_string_unterminated_witness :
  parse_string (TidyJSONParser.new (json "['ab,1]") 1) =
    (Return (VStr "ab,1]"), TidyJSONParser.new (json "['ab,1]") 8).
Proof.
  rewrite (proj1 parse_string_unterminated);
    [reflexivity | simpl; lia | reflexivity | reflexivity].
Defined.

(** ** Separators *)

(** C10. When [skip_spaces_and_char(char)] returns, the current character
    is neither [char] nor a space; from a position that is not negative
    it returns after the whole run of such characters.  So a doubled
    comma, or a space in place of the comma, between two elements is
    accepted, and both texts parse to the list of 1 and 2. *)
Theorem skip_spaces_and_char_consumes_runs :
  (forall char self self',
      skip_spaces_and_char char self = (Return tt, self') ->
      exists c, get_char self' = (Return c, self') /\
                char_is c char = false /\ char_is c " " = false) /\
  (forall char self,
      0 <= index self ->
      skip_spaces_and_char char self =
      (Return tt,
       TidyJSONParser.new (json_str self)
         (index self +
          Z.of_nat (Text.run (fun c => char_is c char || char_is c " ")
                      (Text.rest self))))) /\
  (forall fuel,
      parse_json (4 + fuel) (start "[1,,2]") =
      (Return (VList [VInt 1; VInt 2]), TidyJSONParser.new "[1,,2]" 6)) /\
  (forall fuel,
      parse_json (4 + fuel) (start "[1 2]") =
      (Return (VList [VInt 1; VInt 2]), TidyJSONParser.new "[1 2]" 5)).
Proof.
  split; [|split; [|split]].
  - intros char self self' H. unfold skip_spaces_and_char, scan_while in H.
    apply advance_while_exit in H. destruct H as [c [G C]].
    apply orb_false_iff in C. exists c. tauto.
  - intros char self Hi. unfold skip_spaces_and_char.
    apply scan_while_run; [assumption | reflexivity].
  - intros fuel. vm_compute. reflexivity.
  - intros fuel. vm_compute. reflexivity.
Qed.

Lemma skip_spaces_and_char_consumes_runs_witness :
  (exists c, get_char (TidyJSONParser.new "[1, , ,2]" 7) =
               (Return c, TidyJSONParser.new "[1, , ,2]" 7) /\
             char_is c "," = false /\ char_is c " " = false) /\
  skip_spaces_and_char "," (TidyJSONParser.new "[1, , ,2]" 2) =
    (Return tt, TidyJSONParser.new "[1, , ,2]" 7).
Proof.
  split.
  - apply (proj1 skip_spaces_and_char_consumes_runs ","
             (TidyJSONParser.new "[1, , ,2]" 2)).
    vm_compute. reflexivity.
  - rewrite (proj1 (proj2 skip_spaces_and_char_consumes_runs)) by (simpl; lia).
    vm_compute. reflexivity.
Defined.

(** ** The cursor invariant *)

Lemma grows_after (fuel : nat) (op : operation) (self : TidyJSONParser.t) :
  json_str (after fuel op self) = json_str self /\
  index self <= index (after fuel op self).
Proof.
  pose proof (grows_parse_json fuel) as Hj.
  destruct op; simpl.
  - apply Hj.
  - apply grows_parse_collection; assumption.
  - apply grows_parse_collection; assumption.
  - apply grows_parse_object.
  - apply grows_parse_string.
  - apply grows_parse_number.
  - apply grows_parse_boolean_or_null.
  - apply grows_skip_spaces_and_char.
  - apply grows_get_char.
Qed.

(** C9. Every operation of the parser (dispatch, collection, array,
    object, string, number, literal, skip, current character), run with
    any fuel and so cut at any point of its execution, leaves an index
    that is at least the index it started from, on the same text; an
    index that starts at zero or above is never negative afterwards. *)
Theorem index_never_decreases :
  forall fuel op self,
    0 <= index self ->
    index self <= index (after fuel op self) /\
    0 <= index (after fuel op self) /\
    json_str (after fuel op self) = json_str self.
Proof.
  intros fuel op self H.
  destruct (grows_after fuel op self) as [J I]. repeat split; auto; lia.
Qed.

Lemma index_never_decreases_witness :
  3 <= index (after 5 Dispatch (TidyJSONParser.new (json "[1,[2,3],'x']") 3)) /\
  0 <= index (after 5 Dispatch (TidyJSONParser.new (json "[1,[2,3],'x']") 3)) /\
  json_str (after 5 Dispatch (TidyJSONParser.new (json "[1,[2,3],'x']") 3)) =
    (json "[1,[2,3],'x']").
Proof.
  apply (index_never_decreases 5 Dispatch (TidyJSONParser.new (json "[1,[2,3],'x']") 3)).
  simpl. lia.
Defined.

(** ** Objects *)

(** The dispatcher on a current character that is an opening brace:
    [parse_object] is called, returns [None] and moves nothing. *)
Lemma parse_json_on_brace (fuel : nat) (self : TidyJSONParser.t) :
  get_char self = (Return (Some "{"%char), self) ->
  parse_json (S fuel) self = (Return VNone, self).
Proof.
  intros G. simpl. rewrite (bind_return _ _ _ _ _ G). reflexivity.
Qed.

(** An array whose element is an object is never finished: the stub of
    [parse_object] leaves the index on the brace, and each round of the
    loop appends one more [None]. *)
Lemma collection_loop_on_brace (n fuel : nat) (collection : list value)
    (self : TidyJSONParser.t) :
  get_char self = (Return (Some "{"%char), self) ->
  fst (collection_loop n (parse_json fuel) "]" (parse_json fuel) ","
         (VList collection) self) = OutOfFuel.
Proof.
  intros G. revert collection.
  induction n as [|n IH]; intros collection; [reflexivity|].
  simpl. rewrite (bind_return _ _ _ _ _ G). simpl.
  destruct fuel as [|fuel]; [reflexivity|].
  rewrite (bind_return _ _ _ _ _ (parse_json_on_brace fuel self G)).
  rewrite (bind_return _ _ self self (VList (collection ++ [VNone]))) by reflexivity.
  assert (K : skip_spaces_and_char "," self = (Return tt, self)).
  { unfold skip_spaces_and_char, scan_while, budget. simpl.
    rewrite (bind_return _ _ _ _ _ G). reflexivity. }
  rewrite (bind_return _ _ _ _ _ K). apply IH.
Qed.

(** C1, as the code has it.  On a current character that is an opening
    brace the dispatcher returns [None] and leaves the index where it
    was, for the texts of the claim as for every other, because the
    body of [parse_object] is its docstring alone.  The mapping of the
    claim is what [parse_collection] builds when it is called for an
    object: keys in insertion order, and the later value for a repeated
    key. *)
Theorem parse_json_object_returns_None :
  (forall fuel self,
      get_char self = (Return (Some "{"%char), self) ->
      parse_json (S fuel) self = (Return VNone, self)) /\
  (forall fuel,
      parse_json (S fuel) (start (json "{'a':1,'b':2}")) =
      (Return VNone, start (json "{'a':1,'b':2}"))) /\
  (forall fuel,
      parse_json (S fuel) (start (json "{'a':1,'a':2}")) =
      (Return VNone, start (json "{'a':1,'a':2}"))) /\
  (forall fuel,
      parse_collection (3 + fuel) (parse_json (3 + fuel)) "}" (parse_json (3 + fuel)) ":"
        (start (json "{'a':1,'b':2}")) =
      (Return (VDict [(VStr "a", VInt 1); (VStr "b", VInt 2)]),
       TidyJSONParser.new (json "{'a':1,'b':2}") 13)) /\
  (forall fuel,
      parse_collection (3 + fuel) (parse_json (3 + fuel)) "}" (parse_json (3 + fuel)) ":"
        (start (json "{'a':1,'a':2}")) =
      (Return (VDict [(VStr "a", VInt 2)]),
       TidyJSONParser.new (json "{'a':1,'a':2}") 13)).
Proof.
  split; [exact parse_json_on_brace|].
  repeat split; intros fuel; vm_compute; reflexivity.
Qed.

Lemma parse_json_object_returns_None_witness :
  parse_json 1 (TidyJSONParser.new (json "[{'k':0}]") 1) =
    (Return VNone, TidyJSONParser.new (json "[{'k':0}]") 1).
Proof.
  apply (proj1 parse_json_object_returns_None 0%nat
           (TidyJSONParser.new (json "[{'k':0}]") 1)).
  reflexivity.
Defined.

(** ** Collections *)

Lemma collection_loop_at_end (fuel : nat) (parse_json parse_func : method value)
    (end_char delimiter : string) (collection : value) (self : TidyJSONParser.t) :
  Py.len (json_str self) <= index self ->
  collection_loop (S fuel) parse_json end_char parse_func delimiter collection self =
  (Return collection, TidyJSONParser.new (json_str self) (index self + 1)).
Proof.
  intros H. simpl.
  rewrite (bind_return _ _ _ _ _ (get_char_end self H)).
  rewrite andb_false_r. reflexivity.
Qed.

(** C2, as the code has it: on the text of 1 and 2 in a bracket that is
    never closed, [parse_collection] returns the list of 1 and 2 and leaves
    the index at 5; it raises no [ErrorManager]. *)
Lemma unterminated_array_is_returned :
  parse_collection 3 (parse_json 1) "]" (parse_json 1) "," (start "[1,2") =
    (Return (VList [VInt 1; VInt 2]), TidyJSONParser.new "[1,2" 5) /\
  ~ (exists e,
        fst (parse_collection 3 (parse_json 1) "]" (parse_json 1) "," (start "[1,2")) =
        Raise (Error e)).
Proof.
  split; [vm_compute; reflexivity|].
  intros [e H]. vm_compute in H. discriminate.
Qed.

(** C2, amended. When the loop of [parse_collection] finds the end of
    the input instead of the end delimiter, [parse_collection] raises
    nothing: it moves the index one further and returns the collection
    gathered so far; so the text of 1 and 2 in an unclosed bracket parses
    to the list of 1 and 2 with the index at 5.  The only [ErrorManager]
    [parse_collection] can raise is an [UNEXPECTED_TOKEN], so never a
    [MISSING_BRACKET]. *)
Theorem parse_collection_at_end_of_input :
  (forall fuel parse_func end_char delimiter collection self,
      Py.len (json_str self) <= index self ->
      collection_loop (S fuel) (parse_json fuel) end_char parse_func delimiter
        collection self =
      (Return collection, TidyJSONParser.new (json_str self) (index self + 1))) /\
  (forall fuel,
      parse_json (4 + fuel) (start "[1,2") =
      (Return (VList [VInt 1; VInt 2]), TidyJSONParser.new "[1,2" 5)) /\
  (forall fuel end_char delimiter self e self',
      parse_collection fuel (parse_json fuel) end_char (parse_json fuel) delimiter self =
      (Raise (Error e), self') ->
      ErrorManager.error_type e = UNEXPECTED_TOKEN).
Proof.
  split; [|split].
  - intros. apply collection_loop_at_end. assumption.
  - intros fuel. vm_compute. reflexivity.
  - intros fuel end_char delimiter self e self' H.
    pose proof (unexpected_parse_json fuel) as Hj.
    rewrite (unexpected_parse_collection fuel _ _ end_char delimiter Hj Hj self e self' H).
    reflexivity.
Qed.

Lemma parse_collection_at_end_of_input_witness :
  collection_loop 1 (parse_json 0) "]" (parse_json 0) "," (VList [VInt 1; VInt 2])
    (TidyJSONParser.new "[1,2" 4) =
  (Return (VList [VInt 1; VInt 2]), TidyJSONParser.new "[1,2" 5).
Proof.
  apply (proj1 parse_collection_at_end_of_input 0%nat (parse_json 0) "]" ","
           (VList [VInt 1; VInt 2]) (TidyJSONParser.new "[1,2" 4)).
  vm_compute. discriminate.
Defined.

(** ** Literals and the dispatcher *)

(** C4, as the code has it.  The table of the dispatcher has the one
    key [t] for the literals: the text true is routed to
    [parse_boolean_or_null] and gives [True] with the index after it,
    while the texts false and null are refused with an
    [UNEXPECTED_TOKEN] at position 0.  [parse_boolean_or_null] itself
    knows all three literals. *)
Theorem parse_json_literals :
  (forall fuel,
      parse_json (S fuel) (start "true") =
      (Return (VBool true), TidyJSONParser.new "true" 4)) /\
  (forall fuel,
      parse_json (S fuel) (start "false") =
      (Raise (Error (ErrorManager.new UNEXPECTED_TOKEN 0 "false")), start "false")) /\
  (forall fuel,
      parse_json (S fuel) (start "null") =
      (Raise (Error (ErrorManager.new UNEXPECTED_TOKEN 0 "null")), start "null")) /\
  parse_boolean_or_null (start "true") =
    (Return (VBool true), TidyJSONParser.new "true" 4) /\
  parse_boolean_or_null (start "false") =
    (Return (VBool false), TidyJSONParser.new "false" 5) /\
  parse_boolean_or_null (start "null") =
    (Return VNone, TidyJSONParser.new "null" 4).
Proof.
  repeat split; try intros fuel; vm_compute; reflexivity.
Qed.

Lemma parse_json_at_end (fuel : nat) (self : TidyJSONParser.t) :
  Py.len (json_str self) <= index self ->
  parse_json (S fuel) self = (Raise AttributeError, self).
Proof.
  intros H. simpl.
  rewrite (bind_return _ _ _ _ _ (get_char_end self H)). reflexivity.
Qed.

Lemma parse_json_on_other (fuel : nat) (self : TidyJSONParser.t) (c : ascii) :
  get_char self = (Return (Some c), self) ->
  ~ In c ["{"; "["; Py.quote; "-"; "t"]%char ->
  Py.isdigit c = false ->
  parse_json (S fuel) self =
  (Raise (Error (ErrorManager.new UNEXPECTED_TOKEN (index self) (json_str self))), self).
Proof.
  intros G N D. simpl in N.
  assert (E : forall d, c <> d -> Ascii.eqb c d = false)
    by (intros d; apply Ascii.eqb_neq).
  simpl. rewrite (bind_return _ _ _ _ _ G). simpl.
  rewrite !E by (intros ->; tauto). simpl.
  unfold bind, isdigit, ret. rewrite D. reflexivity.
Qed.

(** C5, as the code has it.  On a current character that is none of the
    five keys of the table and for which [isdigit] fails, the dispatcher
    raises an [UNEXPECTED_TOKEN] at the current position, as on the text
    of a lone percent sign at position 0.  At the end of the input the
    current character is [None], on which [isdigit] is called: the
    dispatcher fails with an [AttributeError] and no [ErrorManager], as
    on the empty text. *)
Theorem parse_json_unexpected_token :
  (forall fuel self c,
      get_char self = (Return (Some c), self) ->
      ~ In c ["{"; "["; Py.quote; "-"; "t"]%char ->
      Py.isdigit c = false ->
      parse_json (S fuel) self =
      (Raise (Error (ErrorManager.new UNEXPECTED_TOKEN (index self) (json_str self))),
       self)) /\
  (forall fuel,
      parse_json (S fuel) (start "%") =
      (Raise (Error (ErrorManager.new UNEXPECTED_TOKEN 0 "%")), start "%")) /\
  (forall fuel self,
      Py.len (json_str self) <= index self ->
      parse_json (S fuel) self = (Raise AttributeError, self)) /\
  (forall fuel, parse_json (S fuel) (start "") = (Raise AttributeError, start "")).
Proof.
  split; [exact parse_json_on_other|].
  split; [intros fuel; vm_compute; reflexivity|].
  split; [exact parse_json_at_end|].
  intros fuel; vm_compute; reflexivity.
Qed.

Lemma parse_json_unexpected_token_witness :
  parse_json 1 (TidyJSONParser.new "[1,?]" 3) =
    (Raise (Error (ErrorManager.new UNEXPECTED_TOKEN 3 "[1,?]")),
     TidyJSONParser.new "[1,?]" 3) /\
  parse_json 1 (TidyJSONParser.new "[1," 3) =
    (Raise AttributeError, TidyJSONParser.new "[1," 3).
Proof.
  split.
  - apply (proj1 parse_json_unexpected_token 0%nat
             (TidyJSONParser.new "[1,?]" 3) "?"%char).
    + reflexivity.
    + simpl. intros [H|[H|[H|[H|[H|H]]]]]; discriminate H || exact H.
    + reflexivity.
  - apply (proj1 (proj2 (proj2 parse_json_unexpected_token)) 0%nat
             (TidyJSONParser.new "[1," 3)).
    vm_compute. discriminate.
Defined.


(** ** More facts about texts *)

Lemma append_assoc (a b c : string) : ((a ++ b) ++ c = a ++ (b ++ c))%string.
Proof. induction a as [|x a IH]; simpl; [reflexivity | now rewrite IH]. Qed.

Lemma length_append (a b : string) :
  String.length (a ++ b) = (String.length a + String.length b)%nat.
Proof. induction a as [|x a IH]; simpl; [reflexivity | now rewrite IH]. Qed.

Lemma len_append (a b : string) : Py.len (a ++ b) = Py.len a + Py.len b.
Proof. unfold Py.len. rewrite length_append. lia. Qed.

Lemma len_nonneg (a : string) : 0 <= Py.len a.
Proof. unfold Py.len. lia. Qed.

Lemma drop_append (a b : string) : Text.drop (String.length a) (a ++ b) = b.
Proof. induction a as [|x a IH]; simpl; [reflexivity | exact IH]. Qed.

Lemma drop_drop (n m : nat) (s : string) :
  Text.drop (n + m) s = Text.drop m (Text.drop n s).
Proof.
  revert s. induction n as [|n IH]; intros s; [reflexivity|].
  destruct s as [|c s]; simpl; [now destruct m | apply IH].
Qed.

Lemma take_append (a b : string) : Text.take (String.length a) (a ++ b) = a.
Proof. induction a as [|x a IH]; simpl; [now destruct b | now rewrite IH]. Qed.

Lemma take_drop (n : nat) (s : string) :
  (Text.take n s ++ Text.drop n s)%string = s.
Proof.
  revert s. induction n as [|n IH]; intros [|c s]; simpl; try reflexivity.
  now rewrite IH.
Qed.

Lemma length_take (n : nat) (s : string) :
  String.length (Text.take n s) = Nat.min n (String.length s).
Proof.
  revert s. induction n as [|n IH]; intros [|c s]; simpl; try reflexivity.
  now rewrite IH.
Qed.

Lemma at_text_move (self : TidyJSONParser.t) (a b : string) :
  at_text self (a ++ b) ->
  at_text (TidyJSONParser.new (json_str self) (index self + Py.len a)) b.
Proof.
  intros [Hi Hr]. split; cbn [index json_str]; [pose proof (len_nonneg a); lia|].
  unfold Text.rest in *. cbn [index json_str]. unfold Py.len.
  replace (Z.to_nat (index self + Z.of_nat (String.length a)))
    with (Z.to_nat (index self) + String.length a)%nat by lia.
  rewrite drop_drop, Hr. apply drop_append.
Qed.

Lemma at_text_next (self : TidyJSONParser.t) (c : ascii) (b : string) :
  at_text self (String c b) ->
  at_text (TidyJSONParser.new (json_str self) (index self + 1)) b.
Proof.
  intros H. apply (at_text_move self (String c EmptyString) b). exact H.
Qed.

Lemma at_text_char (self : TidyJSONParser.t) (r : string) :
  at_text self r -> get_char self = (Return (Text.head r), self).
Proof. intros [Hi Hr]. rewrite <- Hr. apply get_char_rest. exact Hi. Qed.

Lemma starts_append (lit t : string) : starts lit (lit ++ t) = true.
Proof.
  induction lit as [|a lit IH]; simpl; [reflexivity|].
  rewrite Ascii.eqb_refl. exact IH.
Qed.

Lemma starts_split (lit r : string) :
  starts lit r = true -> r = (lit ++ Text.drop (String.length lit) r)%string.
Proof.
  revert r. induction lit as [|a lit IH]; intros r H; [reflexivity|].
  destruct r as [|b r]; [discriminate|]. simpl in H.
  apply andb_true_iff in H as [E H]. apply Ascii.eqb_eq in E. subst b.
  simpl. f_equal. apply IH. exact H.
Qed.

Lemma starts_take (lit r : string) :
  String.eqb (Text.take (String.length lit) r) lit = starts lit r.
Proof.
  revert r. induction lit as [|a lit IH]; intros [|b r]; simpl; try reflexivity.
  rewrite IH, (Ascii.eqb_sym b a). destruct (Ascii.eqb a b); reflexivity.
Qed.

(** [startswith] from a position that is not negative tests the text
    from that position on. *)
Lemma startswith_starts (self : TidyJSONParser.t) (lit : string) :
  0 <= index self -> lit <> EmptyString ->
  Py.startswith (json_str self) lit (index self) = starts lit (Text.rest self).
Proof.
  intros Hi Hl. unfold Py.startswith.
  destruct (index self <? 0) eqn:E; [apply Z.ltb_lt in E; lia|].
  rewrite substring_take_drop. fold (Text.rest self). rewrite starts_take.
  destruct (Py.len (json_str self) - Py.len lit <? index self) eqn:G; [|reflexivity].
  apply Z.ltb_lt in G.
  destruct (starts lit (Text.rest self)) eqn:S; [|reflexivity].
  apply starts_split in S. apply (f_equal String.length) in S.
  rewrite length_append in S. unfold Text.rest in S. rewrite !length_drop in S.
  assert (0 < String.length lit)%nat by (destruct lit; [congruence | simpl; lia]).
  unfold Py.len in G. lia.
Qed.

(** ** Literals, texts and numbers in closed form *)

Lemma literal_closed_form :
  forall self,
    0 <= index self ->
    parse_boolean_or_null self =
    if starts "true" (Text.rest self) then
      (Return (VBool true), TidyJSONParser.new (json_str self) (index self + 4))
    else if starts "false" (Text.rest self) then
      (Return (VBool false), TidyJSONParser.new (json_str self) (index self + 5))
    else if starts "null" (Text.rest self) then
      (Return VNone, TidyJSONParser.new (json_str self) (index self + 4))
    else
      (Raise (Error (ErrorManager.new UNEXPECTED_TOKEN (index self) (json_str self))),
       self).
Proof.
  intros self Hi. unfold parse_boolean_or_null, first_literal.
  rewrite (bind_return _ _ self self self) by reflexivity.
  rewrite (startswith_starts self "true" Hi) by discriminate.
  destruct (starts "true" (Text.rest self)); [reflexivity|].
  rewrite (bind_return _ _ self self self) by reflexivity.
  rewrite (startswith_starts self "false" Hi) by discriminate.
  destruct (starts "false" (Text.rest self)); [reflexivity|].
  rewrite (bind_return _ _ self self self) by reflexivity.
  rewrite (startswith_starts self "null" Hi) by discriminate.
  destruct (starts "null" (Text.rest self)); reflexivity.
Qed.


(** [parse_boolean_or_null] reads a literal that the rest of the text
    begins with, whatever follows it, and moves the index by its length;
    when the rest begins with none of the three it raises an
    [UNEXPECTED_TOKEN] at the current position and moves nothing. *)
Theorem parse_boolean_or_null_prefix :
  forall self,
    0 <= index self ->
    parse_boolean_or_null self =
    if starts "true" (Text.rest self) then
      (Return (VBool true), TidyJSONParser.new (json_str self) (index self + 4))
    else if starts "false" (Text.rest self) then
      (Return (VBool false), TidyJSONParser.new (json_str self) (index self + 5))
    else if starts "null" (Text.rest self) then
      (Return VNone, TidyJSONParser.new (json_str self) (index self + 4))
    else
      (Raise (Error (ErrorManager.new UNEXPECTED_TOKEN (index self) (json_str self))),
       self).
Proof. exact literal_closed_form. Qed.

Lemma parse_boolean_or_null_prefix_witness :
  parse_boolean_or_null (TidyJSONParser.new "[truest,nul]" 1) =
    (Return (VBool true), TidyJSONParser.new "[truest,nul]" 5) /\
  parse_boolean_or_null (TidyJSONParser.new "[truest,nul]" 8) =
    (Raise (Error (ErrorManager.new UNEXPECTED_TOKEN 8 "[truest,nul]")),
     TidyJSONParser.new "[truest,nul]" 8).
Proof.
  split.
  - rewrite (parse_boolean_or_null_prefix (TidyJSONParser.new "[truest,nul]" 1))
      by (simpl; lia).
    reflexivity.
  - rewrite (parse_boolean_or_null_prefix (TidyJSONParser.new "[truest,nul]" 8))
      by (simpl; lia).
    reflexivity.
Defined.

Lemma run_to_quote (body tail : string) :
  Py.contains Py.quote body = false ->
  Text.run in_string (body ++ String Py.quote tail) = String.length body.
Proof.
  induction body as [|c body IH]; intros H.
  - reflexivity.
  - simpl in H. apply orb_false_iff in H as [H1 H2].
    change (Text.run in_string (String c (body ++ String Py.quote tail)) =
            S (String.length body)).
    simpl Text.run. rewrite in_string_quote, H1. simpl. now rewrite IH.
Qed.

Lemma parse_string_between (self : TidyJSONParser.t) (c : ascii) (body tail : string) :
  at_text self (String c (body ++ String Py.quote tail)) ->
  Py.contains Py.quote body = false ->
  parse_string self =
  (Return (VStr body),
   TidyJSONParser.new (json_str self) (index self + Py.len body + 2)).
Proof.
  intros [Hi Hr] Hq.
  rewrite parse_string_run by assumption. cbv zeta.
  assert (D : Text.drop (Z.to_nat (index self + 1)) (json_str self) =
              (body ++ String Py.quote tail)%string).
  { replace (Z.to_nat (index self + 1)) with (S (Z.to_nat (index self))) by lia.
    eapply drop_next. exact Hr. }
  rewrite D, run_to_quote by assumption.
  rewrite take_append. f_equal. f_equal. unfold Py.len. lia.
Qed.

(** [parse_string] never looks at the current character and gives no
    meaning to a backslash: it returns the text between the current
    character and the next double quote and leaves the index after that
    quote.  From an index that is not negative it always returns a
    text. *)
Theorem parse_string_to_next_quote :
  (forall self c body tail,
      0 <= index self ->
      Text.rest self = String c (body ++ String Py.quote tail) ->
      Py.contains Py.quote body = false ->
      parse_string self =
      (Return (VStr body),
       TidyJSONParser.new (json_str self) (index self + Py.len body + 2))) /\
  (forall self,
      0 <= index self ->
      exists text self', parse_string self = (Return (VStr text), self')).
Proof.
  split.
  - intros self c body tail Hi Hr Hq.
    apply (parse_string_between self c body tail); [split|]; assumption.
  - intros self Hi. rewrite parse_string_run by assumption. eauto.
Qed.

Lemma parse_string_to_next_quote_witness :
  parse_string (TidyJSONParser.new (json "[1,'a\'b']") 3) =
    (Return (VStr "a\"), TidyJSONParser.new (json "[1,'a\'b']") 7) /\
  (exists text self',
      parse_string (TidyJSONParser.new "abc" 7) = (Return (VStr text), self')).
Proof.
  split.
  - rewrite (proj1 parse_string_to_next_quote
               (TidyJSONParser.new (json "[1,'a\'b']") 3) Py.quote "a\"
               (json "b']")).
    + reflexivity.
    + simpl; lia.
    + reflexivity.
    + reflexivity.
  - apply (proj2 parse_string_to_next_quote (TidyJSONParser.new "abc" 7)).
    simpl. lia.
Defined.

(** [get_char] at the bounds: [None] from the length of the text on, a
    character below it, counted from the end of the text for a negative
    index, and an [IndexError] for an index below minus the length. *)
Theorem get_char_bounds :
  forall self,
    (Py.len (json_str self) <= index self -> get_char self = (Return None, self)) /\
    (0 <= index self < Py.len (json_str self) ->
     exists c, String.get (Z.to_nat (index self)) (json_str self) = Some c /\
               get_char self = (Return (Some c), self)) /\
    (- Py.len (json_str self) <= index self /\ index self < 0 ->
     exists c, String.get (Z.to_nat (index self + Py.len (json_str self))) (json_str self)
               = Some c /\
               get_char self = (Return (Some c), self)) /\
    (index self < - Py.len (json_str self) -> get_char self = (Raise IndexError, self)).
Proof.
  intros self.
  assert (G : forall k, (k < String.length (json_str self))%nat ->
              exists c, String.get k (json_str self) = Some c).
  { intros k Hk. rewrite get_drop.
    pose proof (length_drop k (json_str self)) as L.
    destruct (Text.drop k (json_str self)); [simpl in L; lia | simpl; eauto]. }
  pose proof (len_nonneg (json_str self)) as N.
  split; [apply get_char_end | split; [|split]].
  - intros [H0 H1].
    destruct (G (Z.to_nat (index self))) as [c E]; [unfold Py.len in H1; lia|].
    exists c. split; [exact E|].
    unfold get_char, bind, get_self, Py.getitem.
    rewrite (proj2 (Z.ltb_lt _ _) H1), (proj2 (Z.leb_le _ _) H0). simpl.
    rewrite E. reflexivity.
  - intros [H0 H1].
    destruct (G (Z.to_nat (index self + Py.len (json_str self)))) as [c E];
      [unfold Py.len in *; lia|].
    exists c. split; [exact E|].
    unfold get_char, bind, get_self, Py.getitem.
    rewrite (proj2 (Z.ltb_lt (index self) (Py.len (json_str self))) ltac:(lia)).
    rewrite (proj2 (Z.leb_gt 0 (index self)) H1).
    rewrite (proj2 (Z.leb_le _ _) H0), (proj2 (Z.ltb_lt _ _) H1). simpl.
    rewrite E. reflexivity.
  - intros H.
    unfold get_char, bind, get_self, Py.getitem.
    rewrite (proj2 (Z.ltb_lt (index self) (Py.len (json_str self))) ltac:(lia)).
    rewrite (proj2 (Z.leb_gt 0 (index self)) ltac:(lia)).
    rewrite (proj2 (Z.leb_gt _ _) H). reflexivity.
Qed.

Lemma get_char_bounds_witness :
  get_char (TidyJSONParser.new "[1]" 3) = (Return None, TidyJSONParser.new "[1]" 3) /\
  (exists c, String.get 2 "[1]" = Some c /\
             get_char (TidyJSONParser.new "[1]" (-1)) =
               (Return (Some c), TidyJSONParser.new "[1]" (-1))) /\
  get_char (TidyJSONParser.new "[1]" (-4)) =
    (Raise IndexError, TidyJSONParser.new "[1]" (-4)).
Proof.
  split; [|split].
  - apply (proj1 (get_char_bounds (TidyJSONParser.new "[1]" 3))).
    vm_compute. discriminate.
  - apply (proj1 (proj2 (proj2 (get_char_bounds (TidyJSONParser.new "[1]" (-1)))))).
    vm_compute. split; [discriminate | reflexivity].
  - apply (proj2 (proj2 (proj2 (get_char_bounds (TidyJSONParser.new "[1]" (-4)))))).
    reflexivity.
Defined.

Lemma in_number_char (c : option ascii) :
  in_number c = false ->
  c = None \/ c = Some ","%char \/ c = Some " "%char \/ c = Some "}"%char
  \/ c = Some "]"%char.
Proof.
  destruct c as [c|]; [|auto]. rewrite in_number_stop. unfold Text.number_stop. simpl.
  intros H. apply negb_false_iff in H.
  repeat (apply orb_true_iff in H as [H|H];
          [apply Ascii.eqb_eq in H; subst; tauto|]).
  discriminate.
Qed.

(** Whether it returns a number or fails on the conversion,
    [parse_number] from an index that is not negative stops on the end
    of the input or on one of [','], [' '], ['}'] and [']'], which it
    leaves unread; it raises nothing but the [ValueError] of the
    conversion. *)
Theorem parse_number_stops_before_separator :
  forall self,
    0 <= index self ->
    (exists c,
        get_char (snd (parse_number self)) = (Return c, snd (parse_number self)) /\
        (c = None \/ c = Some ","%char \/ c = Some " "%char \/ c = Some "}"%char
         \/ c = Some "]"%char)) /\
    ((exists v, fst (parse_number self) = Return v) \/
     fst (parse_number self) = Raise ValueError).
Proof.
  intros self Hi. split.
  - pose proof (scan_while_run in_number self Hi eq_refl) as R.
    pose proof R as E. unfold scan_while in E. apply advance_while_exit in E.
    destruct E as [c [G C]]. exists c.
    rewrite parse_number_token by assumption. cbn [snd].
    unfold Py.len, Text.number_token.
    rewrite (length_take_until Text.number_stop in_number) by apply in_number_stop.
    split; [exact G | apply in_number_char; exact C].
  - rewrite parse_number_token by assumption. cbn [fst].
    destruct (Text.number_of (Text.number_token self)); eauto.
Qed.

Lemma parse_number_stops_before_separator_witness :
  (exists c,
      get_char (snd (parse_number (TidyJSONParser.new "[12.5x]" 1))) =
        (Return c, snd (parse_number (TidyJSONParser.new "[12.5x]" 1))) /\
      (c = None \/ c = Some ","%char \/ c = Some " "%char \/ c = Some "}"%char
       \/ c = Some "]"%char)) /\
  ((exists v, fst (parse_number (TidyJSONParser.new "[12.5x]" 1)) = Return v) \/
   fst (parse_number (TidyJSONParser.new "[12.5x]" 1)) = Raise ValueError).
Proof.
  apply (parse_number_stops_before_separator (TidyJSONParser.new "[12.5x]" 1)).
  simpl. lia.
Defined.

(** On the end of the input or on a character that ends a number the
    token is empty: [parse_number] fails with the [ValueError] of
    [int] on the empty text and moves nothing. *)
Theorem parse_number_empty_token :
  forall self,
    0 <= index self ->
    in_number (Text.head (Text.rest self)) = false ->
    parse_number self = (Raise ValueError, self).
Proof.
  intros self Hi H. rewrite parse_number_token by assumption.
  assert (T : Text.number_token self = EmptyString).
  { unfold Text.number_token. destruct (Text.rest self) as [|c r]; [reflexivity|].
    simpl in H. rewrite in_number_stop in H. apply negb_false_iff in H.
    simpl. rewrite H. reflexivity. }
  rewrite T. change (Py.len "") with 0. rewrite Z.add_0_r, self_eta. reflexivity.
Qed.

Lemma parse_number_empty_token_witness :
  parse_number (TidyJSONParser.new "[1,]" 3) =
    (Raise ValueError, TidyJSONParser.new "[1,]" 3) /\
  parse_number (TidyJSONParser.new "12" 2) =
    (Raise ValueError, TidyJSONParser.new "12" 2).
Proof.
  split.
  - apply (parse_number_empty_token (TidyJSONParser.new "[1,]" 3));
      [simpl; lia | reflexivity].
  - apply (parse_number_empty_token (TidyJSONParser.new "12" 2));
      [simpl; lia | reflexivity].
Defined.

(** ** Diagnostics *)

(** Every [ErrorManager] the dispatcher raises, at any depth, is an
    [UNEXPECTED_TOKEN] whose position is the index the parser is left
    at and whose text is the text of the parser, which has not changed;
    that index is not before the one the call started from. *)
Theorem parse_json_diagnostic_is_where_it_stopped :
  forall fuel self e self',
    parse_json fuel self = (Raise (Error e), self') ->
    e = ErrorManager.new UNEXPECTED_TOKEN (index self') (json_str self) /\
    index self <= index self'.
Proof.
  intros fuel self e self' H.
  pose proof (unexpected_parse_json fuel self e self' H) as U.
  destruct (grows_parse_json fuel self) as [J I]. rewrite H in J, I. cbn [snd] in J, I.
  unfold unexpected_here in U. rewrite J in U. split; assumption.
Qed.

Lemma parse_json_diagnostic_is_where_it_stopped_witness :
  ErrorManager.new UNEXPECTED_TOKEN 4 "[1,[%]]" =
    ErrorManager.new UNEXPECTED_TOKEN 4 "[1,[%]]" /\
  0 <= 4.
Proof.
  apply (parse_json_diagnostic_is_where_it_stopped 3 (start "[1,[%]]")
           (ErrorManager.new UNEXPECTED_TOKEN 4 "[1,[%]]")
           (TidyJSONParser.new "[1,[%]]" 4)).
  vm_compute. reflexivity.
Defined.

(** The context snippet of a diagnostic at a position that is not
    negative has at most 20 characters; a position inside the text is
    shown in it, at offset [min(p, 10)]; from ten past the end of the
    text on the snippet is empty. *)
Theorem error_context_bounds :
  forall kind p s,
    0 <= p ->
    let context := ErrorManager.error_context (ErrorManager.new kind p s) in
    Py.len context <= 20 /\
    (p < Py.len s ->
     String.get (Z.to_nat (Z.min p 10)) context = String.get (Z.to_nat p) s) /\
    (Py.len s + 10 <= p -> context = EmptyString).
Proof.
  intros kind p s Hp context.
  assert (W : context = Text.window s p)
    by (unfold context, ErrorManager.error_context, ErrorManager._get_context, Text.window;
        cbn [ErrorManager.json_str ErrorManager.position];
        apply slice_window; unfold Py.len; lia).
  rewrite W. unfold Text.window. pose proof (len_nonneg s) as N.
  split; [|split].
  - unfold Py.len. rewrite length_take. lia.
  - intros Hlt. rewrite !get_drop.
    set (lo := Z.max 0 (p - 10)). set (hi := Z.min (Py.len s) (p + 10)).
    assert (E : Z.to_nat p = (Z.to_nat lo + Z.to_nat (Z.min p 10))%nat) by lia.
    rewrite E, drop_drop.
    generalize (Text.drop (Z.to_nat lo) s). intros r.
    assert (K : (Z.to_nat (Z.min p 10) < Z.to_nat (hi - lo))%nat) by lia.
    revert K. generalize (Z.to_nat (Z.min p 10)) (Z.to_nat (hi - lo)).
    intros a b. revert a r. induction b as [|b IH]; intros a r K; [lia|].
    destruct r as [|c r]; [now destruct a|].
    destruct a as [|a]; [reflexivity|]. simpl. apply IH. lia.
  - intros H. replace (Z.to_nat (Z.min (Py.len s) (p + 10) - Z.max 0 (p - 10)))
      with O by lia.
    reflexivity.
Qed.

Lemma error_context_bounds_witness :
  Py.len (ErrorManager.error_context
            (ErrorManager.new UNEXPECTED_TOKEN 12 "[1,2,3,4,5,6,%,8,9,10,11,12,13]")) <= 20 /\
  (12 < Py.len "[1,2,3,4,5,6,%,8,9,10,11,12,13]" ->
   String.get (Z.to_nat (Z.min 12 10))
     (ErrorManager.error_context
        (ErrorManager.new UNEXPECTED_TOKEN 12 "[1,2,3,4,5,6,%,8,9,10,11,12,13]")) =
   String.get (Z.to_nat 12) "[1,2,3,4,5,6,%,8,9,10,11,12,13]") /\
  (Py.len "[1,2,3,4,5,6,%,8,9,10,11,12,13]" + 10 <= 12 ->
   ErrorManager.error_context
     (ErrorManager.new UNEXPECTED_TOKEN 12 "[1,2,3,4,5,6,%,8,9,10,11,12,13]") =
   EmptyString).
Proof.
  apply (error_context_bounds UNEXPECTED_TOKEN 12 "[1,2,3,4,5,6,%,8,9,10,11,12,13]").
  lia.
Defined.

(** ** The dispatcher *)

Lemma parse_json_dispatch (fuel : nat) (self : TidyJSONParser.t) (c : ascii) :
  get_char self = (Return (Some c), self) ->
  parse_json (S fuel) self =
  if Ascii.eqb c "{" then parse_object self
  else if Ascii.eqb c "[" then parse_array fuel (parse_json fuel) self
  else if Ascii.eqb c Py.quote then parse_string self
  else if Ascii.eqb c "-" then parse_number self
  else if Ascii.eqb c "t" then parse_boolean_or_null self
  else if Py.isdigit c then parse_number self
  else raise_error UNEXPECTED_TOKEN self.
Proof.
  intros G. simpl. rewrite (bind_return _ _ _ _ _ G).
  set (f := parse_array fuel (parse_json fuel)). simpl.
  destruct (Ascii.eqb c "{"); [reflexivity|].
  destruct (Ascii.eqb c "["); [reflexivity|].
  destruct (Ascii.eqb c Py.quote); [reflexivity|].
  destruct (Ascii.eqb c "-"); [reflexivity|].
  destruct (Ascii.eqb c "t"); [reflexivity|].
  unfold bind, isdigit, ret. destruct (Py.isdigit c); reflexivity.
Qed.

Lemma parse_array_enter (fuel : nat) (parse_json : method value)
    (self : TidyJSONParser.t) :
  parse_array fuel parse_json self =
  collection_loop fuel parse_json "]" parse_json "," (VList [])
    (TidyJSONParser.new (json_str self) (index self + 1)).
Proof. reflexivity. Qed.

Lemma collection_loop_round (fuel : nat) (parse_json parse_func : method value)
    (end_char delimiter : string) (collection : value) :
  collection_loop (S fuel) parse_json end_char parse_func delimiter collection =
  (c <- get_char ;;
   if negb (char_is c end_char) && negb (is_none c) then
     key_or_value <- parse_func ;;
     collection' <-
       match collection with
       | VDict d =>
           skip_spaces_and_char delimiter ;;
           v <- parse_json ;;
           setitem d key_or_value v
       | VList l => ret (VList (l ++ [key_or_value]))
       | _ => raise AttributeError
       end ;;
     skip_spaces_and_char "," ;;
     collection_loop fuel parse_json end_char parse_func delimiter collection'
   else
     advance 1 ;;
     ret collection).
Proof. reflexivity. Qed.

(** An opening bracket followed by a character that starts no value and
    is not the closing bracket (a space, a comma, a letter other than t)
    is refused: the dispatcher raises an [UNEXPECTED_TOKEN] at that
    character. *)
Theorem array_refuses_what_starts_no_value :
  forall fuel self c tail,
    0 <= index self ->
    Text.rest self = String "[" (String c tail) ->
    ~ In c ["{"; "["; Py.quote; "-"; "t"; "]"]%char ->
    Py.isdigit c = false ->
    parse_json (S (S fuel)) self =
    (Raise (Error (ErrorManager.new UNEXPECTED_TOKEN (index self + 1) (json_str self))),
     TidyJSONParser.new (json_str self) (index self + 1)).
Proof.
  intros fuel self c tail Hi Hr N D.
  assert (A : at_text self (String "[" (String c tail))) by (split; assumption).
  assert (E : forall d, c <> d -> Ascii.eqb c d = false)
    by (intros d; apply Ascii.eqb_neq).
  simpl in N.
  rewrite (parse_json_dispatch _ self "["%char (at_text_char _ _ A)).
  change (Ascii.eqb "[" "{") with false. change (Ascii.eqb "[" "[") with true.
  cbv match. rewrite parse_array_enter.
  pose proof (at_text_next _ _ _ A) as A1.
  pose proof (at_text_char _ _ A1) as G1. simpl Text.head in G1.
  rewrite collection_loop_round, (bind_return _ _ _ _ _ G1).
  rewrite char_is_ascii, (E "]"%char) by (intros ->; tauto).
  change (negb false && negb (is_none (Some c))) with true. cbv match.
  unfold bind at 1.
  rewrite (parse_json_dispatch _ _ c G1).
  rewrite !E by (intros ->; tauto). rewrite D. reflexivity.
Qed.

Lemma array_refuses_what_starts_no_value_witness :
  parse_json 2 (start "[ 1 ]") =
    (Raise (Error (ErrorManager.new UNEXPECTED_TOKEN 1 "[ 1 ]")),
     TidyJSONParser.new "[ 1 ]" 1).
Proof.
  apply (array_refuses_what_starts_no_value 0 (start "[ 1 ]") " "%char "1 ]").
  - simpl. lia.
  - reflexivity.
  - simpl. intros [H|[H|[H|[H|[H|[H|H]]]]]]; discriminate H || exact H.
  - reflexivity.
Defined.

(** An array whose first element is an object is never read to its end:
    [parse_object] returns without moving the index, so each round of
    the loop of [parse_collection] finds the same opening brace again.
    No fuel is enough. *)
Theorem array_of_object_never_finishes :
  forall fuel self tail,
    0 <= index self ->
    Text.rest self = String "[" (String "{" tail) ->
    fst (parse_json fuel self) = OutOfFuel.
Proof.
  intros fuel self tail Hi Hr.
  assert (A : at_text self (String "[" (String "{" tail))) by (split; assumption).
  destruct fuel as [|fuel]; [reflexivity|].
  rewrite (parse_json_dispatch _ self "["%char (at_text_char _ _ A)).
  change (Ascii.eqb "[" "{") with false. change (Ascii.eqb "[" "[") with true.
  cbv match. rewrite parse_array_enter.
  apply collection_loop_on_brace.
  exact (at_text_char _ _ (at_text_next _ _ _ A)).
Qed.

Lemma array_of_object_never_finishes_witness :
  fst (parse_json 50 (start "[{}]")) = OutOfFuel.
Proof.
  apply (array_of_object_never_finishes 50 (start "[{}]") "}]");
    [simpl; lia | reflexivity].
Defined.

(** ** Reading documents back *)

Lemma value_start_apart (c : ascii) :
  Doc.value_start c = true ->
  Ascii.eqb c "]" = false /\ Ascii.eqb c "," = false /\ Ascii.eqb c " " = false /\
  Ascii.eqb c "}" = false /\ Ascii.eqb c ":" = false.
Proof.
  destruct c as [[] [] [] [] [] [] [] []]; vm_compute; intros H;
    try discriminate H; repeat split.
Qed.

Lemma isdigit_apart (c : ascii) :
  Py.isdigit c = true ->
  Ascii.eqb c "{" = false /\ Ascii.eqb c "[" = false /\ Ascii.eqb c Py.quote = false /\
  Ascii.eqb c "-" = false /\ Ascii.eqb c "t" = false.
Proof.
  destruct c as [[] [] [] [] [] [] [] []]; vm_compute; intros H;
    try discriminate H; repeat split.
Qed.

Lemma parse_json_on_bracket (fuel : nat) (self : TidyJSONParser.t) :
  get_char self = (Return (Some "["%char), self) ->
  parse_json (S fuel) self = parse_array fuel (parse_json fuel) self.
Proof. intros G. rewrite (parse_json_dispatch _ _ _ G). reflexivity. Qed.

Lemma parse_json_on_quote (fuel : nat) (self : TidyJSONParser.t) :
  get_char self = (Return (Some Py.quote), self) ->
  parse_json (S fuel) self = parse_string self.
Proof. intros G. rewrite (parse_json_dispatch _ _ _ G). reflexivity. Qed.

Lemma parse_json_on_t (fuel : nat) (self : TidyJSONParser.t) :
  get_char self = (Return (Some "t"%char), self) ->
  parse_json (S fuel) self = parse_boolean_or_null self.
Proof. intros G. rewrite (parse_json_dispatch _ _ _ G). reflexivity. Qed.

Lemma parse_json_on_number (fuel : nat) (self : TidyJSONParser.t) (c : ascii) :
  get_char self = (Return (Some c), self) ->
  Ascii.eqb c "-" || Py.isdigit c = true ->
  parse_json (S fuel) self = parse_number self.
Proof.
  intros G H. rewrite (parse_json_dispatch _ _ _ G).
  apply orb_true_iff in H as [H|H].
  - apply Ascii.eqb_eq in H. subst c. reflexivity.
  - destruct (isdigit_apart c H) as (E1 & E2 & E3 & E4 & E5).
    rewrite E1, E2, E3, E4, E5, H. reflexivity.
Qed.

Lemma render_start (d : doc) :
  Doc.wf d = true ->
  exists c r, Doc.render d = String c r /\ Doc.value_start c = true.
Proof.
  destruct d as [|tok|body|items]; simpl; intros W.
  - exists "t"%char, "rue". split; reflexivity.
  - destruct tok as [|c r]; [discriminate|]. exists c, r. split; [reflexivity|].
    unfold Doc.number_token_ok in W.
    apply andb_true_iff in W as [W _]. apply andb_true_iff in W as [W _].
    unfold Doc.value_start.
    apply orb_true_iff in W as [W|W]; rewrite W; rewrite ?orb_true_r; reflexivity.
  - eexists _, _. split; reflexivity.
  - eexists _, _. split; reflexivity.
Qed.

Lemma take_until_before_stop (tok tail : string) :
  Text.take_until Text.number_stop tok = tok ->
  match tail with String c _ => Text.number_stop c | EmptyString => true end = true ->
  Text.take_until Text.number_stop (tok ++ tail) = tok.
Proof.
  intros T F. induction tok as [|a tok IH];
    cbn [String.append Text.take_until] in *.
  - destruct tail as [|c t]; [reflexivity|].
    cbn [Text.take_until]. now rewrite F.
  - destruct (Text.number_stop a); [discriminate|].
    inversion T as [T']. rewrite T'. now rewrite IH.
Qed.

Lemma reads_true (fuel : nat) : reads (S fuel) DTrue.
Proof.
  intros self tail A _. simpl Doc.render in *.
  rewrite (parse_json_on_t _ _ (at_text_char _ _ A)).
  destruct A as [Hi Hr].
  rewrite literal_closed_form by assumption.
  rewrite Hr. reflexivity.
Qed.

Lemma reads_number (fuel : nat) (tok : string) :
  Doc.number_token_ok tok = true -> reads (S fuel) (DNum tok).
Proof.
  intros W self tail A F. simpl Doc.render in *. simpl Doc.value_of.
  destruct tok as [|c r]; [discriminate|].
  unfold Doc.number_token_ok in W.
  apply andb_true_iff in W as [W N]. apply andb_true_iff in W as [S T].
  apply String.eqb_eq in T.
  rewrite (parse_json_on_number _ _ c (at_text_char _ _ A) S).
  destruct A as [Hi Hr].
  rewrite parse_number_token by assumption.
  unfold Text.number_token. rewrite Hr.
  rewrite (take_until_before_stop (String c r) tail T)
    by (destruct tail; [reflexivity | exact F]).
  destruct (Text.number_of (String c r)); [reflexivity | discriminate].
Qed.

Lemma reads_text (fuel : nat) (body : string) :
  Py.contains Py.quote body = false -> reads (S fuel) (DStr body).
Proof.
  intros W self tail A _. simpl Doc.render in *. simpl Doc.value_of.
  rewrite (parse_json_on_quote _ _ (at_text_char _ _ A)).
  change (String Py.quote (body ++ Py.dquote) ++ tail)%string
    with (String Py.quote ((body ++ Py.dquote) ++ tail)) in A.
  rewrite append_assoc in A.
  rewrite (parse_string_between self Py.quote body tail A W).
  f_equal. f_equal. unfold Py.len. simpl String.length.
  rewrite length_append. simpl. lia.
Qed.

Lemma len_cons (c : ascii) (r : string) : Py.len (String c r) = 1 + Py.len r.
Proof. unfold Py.len. simpl String.length. lia. Qed.

(** Between two elements, or before the closing delimiter, the skip of
    the comma takes the separator and nothing else. *)
Lemma skip_separator (self : TidyJSONParser.t) (sep : string) (c : ascii) (r : string) :
  at_text self (sep ++ String c r) ->
  sep = EmptyString \/ sep = "," ->
  Ascii.eqb c "," = false -> Ascii.eqb c " " = false ->
  skip_spaces_and_char "," self =
  (Return tt, TidyJSONParser.new (json_str self) (index self + Py.len sep)).
Proof.
  intros [Hi Hr] S C1 C2. unfold skip_spaces_and_char.
  rewrite scan_while_run by (assumption || reflexivity).
  rewrite Hr. f_equal. f_equal. f_equal.
  destruct S as [-> | ->]; cbn [String.append Text.run];
    rewrite ?char_is_ascii, ?C1, ?C2; reflexivity.
Qed.

Lemma elements_start (items : list doc) :
  (forall d, In d items -> Doc.wf d = true) ->
  exists c r, Doc.elements Doc.render items = String c r /\
              Ascii.eqb c "," = false /\ Ascii.eqb c " " = false.
Proof.
  intros W. destruct items as [|d ds].
  - exists "]"%char, EmptyString. repeat split.
  - destruct (render_start d (W d (or_introl eq_refl))) as (c & r & E & V).
    destruct (value_start_apart c V) as (_ & C1 & C2 & _).
    cbn [Doc.elements]. rewrite E. eexists _, _. repeat split; assumption.
Qed.

Lemma follows_separator (d : doc) (ds : list doc) (tail : string) :
  Doc.follows d
    ((match ds with [] => "" | _ :: _ => "," end)
     ++ Doc.elements Doc.render ds ++ tail) = true.
Proof. destruct d; try reflexivity; destruct ds; reflexivity. Qed.

Lemma reads_elements (fuel : nat) (items : list doc) :
  (forall d, In d items -> Doc.wf d = true /\ reads fuel d) ->
  forall k acc self tail,
    (List.length items < k)%nat ->
    at_text self (Doc.elements Doc.render items ++ tail) ->
    collection_loop k (parse_json fuel) "]" (parse_json fuel) "," (VList acc) self =
    (Return (VList (acc ++ map Doc.value_of items)),
     TidyJSONParser.new (json_str self)
       (index self + Py.len (Doc.elements Doc.render items))).
Proof.
  induction items as [|d ds IH]; intros H k acc self tail Hk A;
    (destruct k as [|k]; [simpl in Hk; lia|]); rewrite collection_loop_round.
  - rewrite (bind_return _ _ _ _ _ (at_text_char _ _ A)).
    simpl. rewrite app_nil_r. reflexivity.
  - destruct (H d (or_introl eq_refl)) as [Wd Rd].
    assert (Hds : forall d', In d' ds -> Doc.wf d' = true /\ reads fuel d')
      by (intros d' I; apply H; right; exact I).
    cbn [Doc.elements] in *.
    set (sep := match ds with [] => "" | _ :: _ => "," end) in *.
    rewrite !append_assoc in A.
    destruct (render_start d Wd) as (c & r & E & V).
    destruct (value_start_apart c V) as (C0 & _).
    pose proof (at_text_char _ _ A) as G. rewrite E in G. simpl Text.head in G.
    rewrite (bind_return _ _ _ _ _ G).
    rewrite char_is_ascii, C0.
    change (negb false && negb (is_none (Some c))) with true. cbv match.
    rewrite (bind_return _ _ _ _ _ (Rd self _ A (follows_separator d ds tail))).
    rewrite (bind_return _ _ _ _ (VList (acc ++ [Doc.value_of d]))) by reflexivity.
    pose proof (at_text_move _ _ _ A) as A1.
    destruct (elements_start ds (fun d' I => proj1 (Hds d' I))) as (c' & r' & E' & C1 & C2).
    assert (A1' : at_text
                    (TidyJSONParser.new (json_str self)
                       (index self + Py.len (Doc.render d)))
                    (sep ++ String c' (r' ++ tail)))
      by (rewrite E' in A1; exact A1).
    rewrite (bind_return _ _ _ _ _
               (skip_separator _ sep c' (r' ++ tail) A1'
                  ltac:(subst sep; destruct ds; auto) C1 C2)).
    pose proof (at_text_move _ _ _ A1) as A2. cbn [json_str index] in A2 |- *.
    rewrite (IH Hds k (acc ++ [Doc.value_of d])%list _ tail ltac:(simpl in Hk; lia) A2).
    cbn [json_str index map]. rewrite <- app_assoc. simpl app.
    f_equal. f_equal. rewrite !len_append. lia.
Qed.

Lemma reads_array (fuel : nat) (items : list doc) :
  (forall d, In d items -> Doc.wf d = true /\ reads fuel d) ->
  (List.length items < fuel)%nat ->
  reads (S fuel) (DArr items).
Proof.
  intros H L self tail A _. cbn [Doc.render Doc.value_of] in *.
  rewrite (parse_json_on_bracket _ _ (at_text_char _ _ A)), parse_array_enter.
  change (String "[" (Doc.elements Doc.render items) ++ tail)%string
    with (String "[" (Doc.elements Doc.render items ++ tail)) in A.
  rewrite (reads_elements fuel items H fuel [] _ tail L (at_text_next _ _ _ A)).
  cbn [json_str index app]. f_equal. f_equal. rewrite len_cons. lia.
Qed.

Lemma size_positive (d : doc) : (1 <= Doc.size d)%nat.
Proof. destruct d; simpl; lia. Qed.

Lemma size_element (d : doc) (items : list doc) :
  In d items -> (Doc.size d <= list_sum (map Doc.size items))%nat.
Proof.
  induction items as [|x items IH]; intros I; [contradiction|].
  simpl. destruct I as [-> | I]; [lia | specialize (IH I); lia].
Qed.

Lemma length_le_sizes (items : list doc) :
  (List.length items <= list_sum (map Doc.size items))%nat.
Proof.
  induction items as [|x items IH]; simpl; [lia|].
  pose proof (size_positive x). lia.
Qed.

Lemma reads_doc (fuel : nat) :
  forall d, Doc.wf d = true -> (Doc.size d <= fuel)%nat -> reads fuel d.
Proof.
  induction fuel as [|fuel IH]; intros d W S.
  - pose proof (size_positive d). lia.
  - destruct d as [|tok|body|items].
    + apply reads_true.
    + apply reads_number. exact W.
    + apply reads_text. simpl in W. apply negb_true_iff in W. exact W.
    + cbn [Doc.wf Doc.size] in W, S. rewrite forallb_forall in W.
      pose proof (length_le_sizes items) as L.
      apply reads_array; [|lia].
      intros d I. split; [apply W; exact I|].
      apply IH; [apply W; exact I|].
      pose proof (size_element d items I). lia.
Qed.

(** Every document built from the literal true, number tokens, texts
    without a double quote and arrays of such documents is read back by
    the dispatcher from its compact text: with fuel for its size, and
    from any position that is not negative, [parse_json] returns the
    value of the document and leaves the index just after its text.
    After a number the text must end or go on with a character that
    ends a number. *)
Theorem documents_are_read_back :
  forall fuel d self tail,
    Doc.wf d = true ->
    Doc.follows d tail = true ->
    (Doc.size d <= fuel)%nat ->
    0 <= index self ->
    Text.rest self = (Doc.render d ++ tail)%string ->
    parse_json fuel self =
    (Return (Doc.value_of d),
     TidyJSONParser.new (json_str self) (index self + Py.len (Doc.render d))).
Proof.
  intros fuel d self tail W F S Hi Hr.
  apply (reads_doc fuel d W S self tail); [split; assumption | exact F].
Qed.

Lemma documents_are_read_back_witness :
  parse_json 10 (start (json "[1,['a\b',true],-2.5,[]] rest")) =
  (Return (VList [VInt 1; VList [VStr "a\b"; VBool true];
                  VFloat (Py.binary64 true 5 (-1)); VList []]),
   TidyJSONParser.new (json "[1,['a\b',true],-2.5,[]] rest") 24).
Proof.
  apply (documents_are_read_back 10
           (DArr [DNum "1"; DArr [DStr "a\b"; DTrue]; DNum "-2.5"; DArr []])
           (start (json "[1,['a\b',true],-2.5,[]] rest")) " rest").
  - reflexivity.
  - reflexivity.
  - simpl. lia.
  - simpl. lia.
  - reflexivity.
Defined.

(** ** Objects through [parse_collection] *)

Lemma skip_one (self : TidyJSONParser.t) (ch : ascii) (sep : string)
    (c : ascii) (r : string) :
  at_text self (sep ++ String c r) ->
  sep = EmptyString \/ sep = String ch EmptyString ->
  Ascii.eqb c ch = false -> Ascii.eqb c " " = false ->
  skip_spaces_and_char (String ch EmptyString) self =
  (Return tt, TidyJSONParser.new (json_str self) (index self + Py.len sep)).
Proof.
  intros [Hi Hr] S C1 C2. unfold skip_spaces_and_char.
  rewrite scan_while_run by (assumption || reflexivity).
  rewrite Hr. f_equal. f_equal. f_equal.
  destruct S as [-> | ->]; cbn [String.append Text.run];
    rewrite ?char_is_ascii, ?C1, ?C2, ?Ascii.eqb_refl; reflexivity.
Qed.

Lemma key_ok_wf (k : doc) : Doc.key_ok k = true -> Doc.wf k = true.
Proof. destruct k; simpl; intros H; try discriminate; exact H. Qed.

Lemma key_ok_follows (k : doc) (tail : string) :
  Doc.key_ok k = true -> Doc.follows k tail = true.
Proof. destruct k; simpl; intros H; try discriminate; reflexivity. Qed.

Lemma key_ok_hashable (k : doc) :
  Doc.key_ok k = true -> Dict.hashable (Doc.value_of k) = true.
Proof. destruct k; simpl; intros H; try discriminate; reflexivity. Qed.

Lemma members_start (ps : list (doc * doc)) :
  (forall k v, In (k, v) ps -> Doc.key_ok k = true) ->
  exists c r, Doc.members ps = String c r /\
              Ascii.eqb c "," = false /\ Ascii.eqb c " " = false.
Proof.
  intros W. destruct ps as [|[k v] ps].
  - exists "}"%char, EmptyString. repeat split.
  - destruct (render_start k (key_ok_wf k (W k v (or_introl eq_refl))))
      as (c & r & E & V).
    destruct (value_start_apart c V) as (_ & C1 & C2 & _).
    cbn [Doc.members]. rewrite E. eexists _, _. repeat split; assumption.
Qed.

Lemma follows_member (v : doc) (ps : list (doc * doc)) (tail : string) :
  Doc.follows v
    ((match ps with [] => "" | _ :: _ => "," end) ++ Doc.members ps ++ tail) = true.
Proof.
  destruct v; try reflexivity; destruct ps as [|[k w] ps]; reflexivity.
Qed.

Lemma reads_members (fuel : nat) (ps : list (doc * doc)) :
  (forall k v, In (k, v) ps ->
               Doc.key_ok k = true /\ Doc.wf v = true /\ reads fuel k /\ reads fuel v) ->
  forall n acc self tail,
    (List.length ps < n)%nat ->
    at_text self (Doc.members ps ++ tail) ->
    collection_loop n (parse_json fuel) "}" (parse_json fuel) ":" (VDict acc) self =
    (Return (VDict (Doc.mapping acc ps)),
     TidyJSONParser.new (json_str self) (index self + Py.len (Doc.members ps))).
Proof.
  induction ps as [|[k v] ps IH]; intros H n acc self tail Hn A;
    (destruct n as [|n]; [simpl in Hn; lia|]); rewrite collection_loop_round.
  - rewrite (bind_return _ _ _ _ _ (at_text_char _ _ A)). reflexivity.
  - destruct (H k v (or_introl eq_refl)) as (Kk & Wv & Rk & Rv).
    assert (Hps : forall k' v', In (k', v') ps ->
                  Doc.key_ok k' = true /\ Doc.wf v' = true /\
                  reads fuel k' /\ reads fuel v')
      by (intros k' v' I; apply H; right; exact I).
    cbn [Doc.members] in *.
    set (sep := match ps with [] => "" | _ :: _ => "," end) in *.
    rewrite !append_assoc in A.
    destruct (render_start k (key_ok_wf k Kk)) as (c & r & E & V).
    destruct (value_start_apart c V) as (_ & _ & _ & C0 & _).
    pose proof (at_text_char _ _ A) as G. rewrite E in G. simpl Text.head in G.
    rewrite (bind_return _ _ _ _ _ G).
    rewrite char_is_ascii, C0.
    change (negb false && negb (is_none (Some c))) with true. cbv match.
    rewrite (bind_return _ _ _ _ _ (Rk self _ A (key_ok_follows k _ Kk))).
    pose proof (at_text_move _ _ _ A) as A1.
    destruct (render_start v Wv) as (cv & rv & Ev & Vv).
    destruct (value_start_apart cv Vv) as (_ & _ & D2 & _ & D1).
    assert (A1' : at_text
                    (TidyJSONParser.new (json_str self)
                       (index self + Py.len (Doc.render k)))
                    (":" ++ String cv (rv ++ sep ++ Doc.members ps ++ tail)))
      by (rewrite Ev in A1; exact A1).
    unfold bind at 1.
    rewrite (bind_return _ _ _ _ _
               (skip_one _ ":"%char ":" cv _ A1' (or_intror eq_refl) D1 D2)).
    pose proof (at_text_move _ _ _ A1) as A2. cbn [json_str index] in A2 |- *.
    rewrite (bind_return _ _ _ _ _ (Rv _ _ A2 (follows_member v ps tail))).
    unfold setitem. rewrite (key_ok_hashable k Kk). unfold ret at 1.
    pose proof (at_text_move _ _ _ A2) as A3. cbn [json_str index] in A3 |- *.
    destruct (members_start ps (fun k' v' I => proj1 (Hps k' v' I)))
      as (c' & r' & E' & C1 & C2).
    assert (A3' : at_text
                    (TidyJSONParser.new (json_str self)
                       (index self + Py.len (Doc.render k) + Py.len ":"
                        + Py.len (Doc.render v)))
                    (sep ++ String c' (r' ++ tail)))
      by (rewrite E' in A3; exact A3).
    rewrite (bind_return _ _ _ _ _
               (skip_one _ ","%char sep c' (r' ++ tail) A3'
                  ltac:(subst sep; destruct ps; auto) C1 C2)).
    pose proof (at_text_move _ _ _ A3) as A4. cbn [json_str index] in A4 |- *.
    rewrite (IH Hps n _ _ tail ltac:(simpl in Hn; lia) A4).
    cbn [json_str index]. f_equal. f_equal. rewrite !len_append. lia.
Qed.

(** Called for an object, [parse_collection] never looks at the
    character it starts on; on pairs of a key (a text or true), a colon
    and a value, with a comma between two pairs and a closing brace, it
    assigns each pair in turn into a mapping that starts empty, returns
    that mapping and leaves the index after the brace. *)
Lemma reads_object (fuel : nat) (ps : list (doc * doc)) (self : TidyJSONParser.t)
    (c : ascii) (tail : string) :
  (forall k v, In (k, v) ps ->
               Doc.key_ok k = true /\ Doc.wf v = true /\
               (Doc.size k <= fuel)%nat /\ (Doc.size v <= fuel)%nat) ->
  (List.length ps < fuel)%nat ->
  at_text self (String c (Doc.members ps ++ tail)) ->
  parse_collection fuel (parse_json fuel) "}" (parse_json fuel) ":" self =
  (Return (VDict (Doc.mapping [] ps)),
   TidyJSONParser.new (json_str self) (index self + 1 + Py.len (Doc.members ps))).
Proof.
  intros H L A.
  change (parse_collection fuel (parse_json fuel) "}" (parse_json fuel) ":" self)
    with (collection_loop fuel (parse_json fuel) "}" (parse_json fuel) ":" (VDict [])
            (TidyJSONParser.new (json_str self) (index self + 1))).
  rewrite (reads_members fuel ps) with (tail := tail);
    [reflexivity | | exact L | exact (at_text_next _ _ _ A)].
  intros k v I. destruct (H k v I) as (Kk & Wv & Sk & Sv).
  repeat split; try assumption; apply reads_doc; auto using key_ok_wf.
Qed.

Theorem parse_collection_reads_objects :
  forall fuel ps self c tail,
    (forall k v, In (k, v) ps ->
                 Doc.key_ok k = true /\ Doc.wf v = true /\
                 (Doc.size k <= fuel)%nat /\ (Doc.size v <= fuel)%nat) ->
    (List.length ps < fuel)%nat ->
    0 <= index self ->
    Text.rest self = String c (Doc.members ps ++ tail) ->
    parse_collection fuel (parse_json fuel) "}" (parse_json fuel) ":" self =
    (Return (VDict (Doc.mapping [] ps)),
     TidyJSONParser.new (json_str self) (index self + 1 + Py.len (Doc.members ps))).
Proof.
  intros fuel ps self c tail H L Hi Hr.
  apply (reads_object fuel ps self c tail H L). split; assumption.
Qed.

Lemma parse_collection_reads_objects_witness :
  parse_collection 4 (parse_json 4) "}" (parse_json 4) ":"
    (start (json "{'a':1,'b':[true],'a':2}")) =
  (Return (VDict [(VStr "a", VInt 2); (VStr "b", VList [VBool true])]),
   TidyJSONParser.new (json "{'a':1,'b':[true],'a':2}") 24).
Proof.
  apply (parse_collection_reads_objects 4
           [(DStr "a", DNum "1"); (DStr "b", DArr [DTrue]); (DStr "a", DNum "2")]
           (start (json "{'a':1,'b':[true],'a':2}")) "{"%char "").
  - intros k v [E|[E|[E|[]]]]; inversion E; subst;
      repeat split; try reflexivity; simpl; lia.
  - simpl. lia.
  - simpl. lia.
  - reflexivity.
Defined.

Lemma find_setitem (acc : list (value * value)) (k : string) (v : value) (a : string) :
  find (Dict.setitem acc (VStr k) v) a =
  if String.eqb k a then Some v else find acc a.
Proof.
  induction acc as [|[k' v'] acc IH]; [reflexivity|].
  cbn [Dict.setitem].
  destruct k' as [| | | |k''| |]; cbn [Dict.key_eqb find]; try exact IH.
  destruct (String.eqb k'' k) eqn:E; cbn [find].
  - apply String.eqb_eq in E. subst k''. destruct (String.eqb k a); reflexivity.
  - rewrite IH. destruct (String.eqb k'' a) eqn:E1; [|reflexivity].
    destruct (String.eqb k a) eqn:E2; [|reflexivity].
    apply String.eqb_eq in E1, E2. subst. rewrite String.eqb_refl in E. discriminate.
Qed.

Lemma find_mapping (ps : list (doc * doc)) (a : string) :
  (forall k v, In (k, v) ps -> exists b, k = DStr b) ->
  forall acc,
    find (Doc.mapping acc ps) a =
    match last_value ps a with
    | Some w => Some w
    | None => find acc a
    end.
Proof.
  induction ps as [|[k v] ps IH]; intros H acc; [reflexivity|].
  destruct (H k v (or_introl eq_refl)) as [b ->].
  unfold Doc.mapping in *. cbn [fold_left fst snd Doc.value_of last_value].
  rewrite IH by (intros k' v' I; apply (H k' v'); right; exact I).
  destruct (last_value ps a); [reflexivity|].
  rewrite find_setitem. destruct (String.eqb b a); reflexivity.
Qed.

(** The last write wins.  When every key of the pairs is a text, the
    mapping [parse_collection] returns for them holds, under each text,
    the value of the last pair with that key, and nothing under a text
    that is no key. *)
Theorem parse_collection_last_write_wins :
  forall fuel ps self c tail,
    (forall k v, In (k, v) ps ->
                 (exists b, k = DStr b) /\ Doc.key_ok k = true /\ Doc.wf v = true /\
                 (Doc.size k <= fuel)%nat /\ (Doc.size v <= fuel)%nat) ->
    (List.length ps < fuel)%nat ->
    0 <= index self ->
    Text.rest self = String c (Doc.members ps ++ tail) ->
    exists m self',
      parse_collection fuel (parse_json fuel) "}" (parse_json fuel) ":" self =
        (Return (VDict m), self') /\
      forall a, find m a = last_value ps a.
Proof.
  intros fuel ps self c tail H L Hi Hr.
  exists (Doc.mapping [] ps). eexists. split.
  - apply (reads_object fuel ps self c tail); [| exact L | split; assumption].
    intros k v I. destruct (H k v I) as (_ & K). exact K.
  - intros a. rewrite find_mapping.
    + destruct (last_value ps a); reflexivity.
    + intros k v I. destruct (H k v I) as (B & _). exact B.
Qed.

Lemma parse_collection_last_write_wins_witness :
  exists m self',
    parse_collection 4 (parse_json 4) "}" (parse_json 4) ":"
      (start (json "{'a':1,'b':true,'a':2}")) = (Return (VDict m), self') /\
    forall a,
      find m a =
      last_value [(DStr "a", DNum "1"); (DStr "b", DTrue); (DStr "a", DNum "2")] a.
Proof.
  apply (parse_collection_last_write_wins 4
           [(DStr "a", DNum "1"); (DStr "b", DTrue); (DStr "a", DNum "2")]
           (start (json "{'a':1,'b':true,'a':2}")) "{"%char "").
  - intros k v [E|[E|[E|[]]]]; inversion E; subst;
      (split; [eexists; reflexivity|]); repeat split; try reflexivity; simpl; lia.
  - simpl. lia.
  - simpl. lia.
  - reflexivity.
Defined.

(** ** What the dispatcher never does *)






Lemma progress_lemma :
  forall fuel self v self',
    0 <= index self ->
    Text.head (Text.rest self) <> Some "{"%char ->
    parse_json fuel self = (Return v, self') ->
    index self < index self'.
Proof.
  intros fuel self v self' Hi B H. destruct fuel as [|fuel]; [discriminate|].
  pose proof (get_char_rest self Hi) as G.
  destruct (Text.head (Text.rest self)) as [c|].
  - rewrite (parse_json_dispatch _ _ c G) in H.
    destruct (Ascii.eqb c "{") eqn:E0;
      [apply Ascii.eqb_eq in E0; subst c; congruence|].
    destruct (Ascii.eqb c "[").
    { rewrite parse_array_enter in H.
      destruct (grows_collection_loop fuel (parse_json fuel) (parse_json fuel)
                  "]" "," (VList []) (grows_parse_json fuel) (grows_parse_json fuel)
                  (TidyJSONParser.new (json_str self) (index self + 1))) as [_ I].
      rewrite H in I. cbn [snd index] in I. lia. }
    assert (N : parse_number self = (Return v, self') -> index self < index self').
    { intros K. rewrite parse_number_token in K by assumption.
      destruct (Text.number_token self) as [|a tok] eqn:T;
        [vm_compute in K; discriminate|].
      destruct (Text.number_of (String a tok)); inversion K.
      cbn [index]. rewrite len_cons. pose proof (len_nonneg tok). lia. }
    destruct (Ascii.eqb c Py.quote).
    { rewrite parse_string_run in H by assumption. inversion H. cbn [index]. lia. }
    destruct (Ascii.eqb c "-"); [exact (N H)|].
    destruct (Ascii.eqb c "t").
    { rewrite literal_closed_form in H by assumption.
      repeat match type of H with
             | (if ?b then _ else _) = _ =>
                 destruct b; [inversion H; cbn [index]; lia|]
             end.
      discriminate. }
    destruct (Py.isdigit c); [exact (N H)|]. discriminate.
  - simpl in H. rewrite (bind_return _ _ _ _ _ G) in H. discriminate.
Qed.


(** A value costs at least one character: when the dispatcher returns
    from an index that is not negative and the current character is not
    an opening brace, the index has moved forward. *)
Theorem parse_json_returns_after_progress :
  forall fuel self v self',
    0 <= index self ->
    Text.head (Text.rest self) <> Some "{"%char ->
    parse_json fuel self = (Return v, self') ->
    index self < index self'.
Proof. exact progress_lemma. Qed.

Lemma parse_json_returns_after_progress_witness :
  0 < 7.
Proof.
  apply (parse_json_returns_after_progress 5 (start "[1,[2]]") (VList [VInt 1; VList [VInt 2]])
           (TidyJSONParser.new "[1,[2]]" 7)).
  - simpl. lia.
  - vm_compute. discriminate.
  - vm_compute. reflexivity.
Defined.

(** ** Termination *)

Lemma contains_drop (c : ascii) (n : nat) (s : string) :
  Py.contains c s = false -> Py.contains c (Text.drop n s) = false.
Proof.
  revert s. induction n as [|n IH]; intros [|d s] H; try exact H.
  simpl in H. apply orb_false_iff in H as [_ H]. simpl. apply IH. exact H.
Qed.

Lemma rest_later (self self' : TidyJSONParser.t) :
  0 <= index self -> json_str self' = json_str self -> index self <= index self' ->
  Text.rest self' =
  Text.drop (Z.to_nat (index self' - index self)) (Text.rest self).
Proof.
  intros Hi J I. unfold Text.rest. rewrite J, <- drop_drop. f_equal. lia.
Qed.

Lemma no_brace_later (self self' : TidyJSONParser.t) :
  0 <= index self -> json_str self' = json_str self -> index self <= index self' ->
  Py.contains "{" (Text.rest self) = false ->
  Py.contains "{" (Text.rest self') = false.
Proof.
  intros Hi J I H. rewrite (rest_later self self' Hi J I). apply contains_drop. exact H.
Qed.

Lemma remaining_rest (self : TidyJSONParser.t) :
  0 <= index self -> String.length (Text.rest self) = remaining self.
Proof.
  intros Hi. unfold Text.rest, remaining, Py.len. rewrite length_drop. lia.
Qed.

Lemma array_loop_settles (fuel : nat) :
  (forall self, 0 <= index self -> Py.contains "{" (Text.rest self) = false ->
                (remaining self < fuel)%nat ->
                fst (parse_json fuel self) <> OutOfFuel) ->
  forall n l self,
    0 <= index self -> Py.contains "{" (Text.rest self) = false ->
    (remaining self < n)%nat -> (remaining self < fuel)%nat ->
    fst (collection_loop n (parse_json fuel) "]" (parse_json fuel) "," (VList l) self)
    <> OutOfFuel.
Proof.
  intros H. induction n as [|n IH]; intros l self Hi B Rn Rf; [lia|].
  rewrite collection_loop_round.
  rewrite (bind_return _ _ _ _ _ (get_char_rest self Hi)).
  pose proof (remaining_rest self Hi) as L.
  destruct (Text.rest self) as [|c r] eqn:E; [simpl; discriminate|].
  cbn [Text.head is_none negb andb]. rewrite andb_true_r.
  destruct (negb (char_is (Some c) "]")); [|simpl; discriminate].
  unfold bind at 1.
  pose proof (H self Hi ltac:(rewrite E; exact B) Rf) as Hs.
  destruct (grows_parse_json fuel self) as [J I].
  destruct (parse_json fuel self) as [[v|x|] s1] eqn:P; cbn [fst snd] in *;
    [| discriminate | congruence].
  assert (Pr : index self < index s1).
  { apply (progress_lemma fuel self v s1 Hi); [|exact P].
    rewrite E. simpl in B. apply orb_false_iff in B as [B _].
    intros K. inversion K. subst c. discriminate. }
  rewrite (bind_return _ _ s1 s1 (VList (l ++ [v]))) by reflexivity.
  unfold bind at 1, skip_spaces_and_char.
  rewrite scan_while_run by (lia || reflexivity).
  apply IH; cbn [index json_str].
  - lia.
  - apply (no_brace_later self); cbn [index json_str]; try assumption; try lia.
    rewrite E. exact B.
  - unfold remaining in *. cbn [index json_str]. rewrite J. simpl in L. lia.
  - unfold remaining in *. cbn [index json_str]. rewrite J. lia.
Qed.

Lemma parse_json_settles (fuel : nat) :
  forall self,
    0 <= index self -> Py.contains "{" (Text.rest self) = false ->
    (remaining self < fuel)%nat ->
    fst (parse_json fuel self) <> OutOfFuel.
Proof.
  induction fuel as [|fuel IH]; intros self Hi B R; [lia|].
  pose proof (get_char_rest self Hi) as G.
  pose proof (remaining_rest self Hi) as L.
  destruct (Text.rest self) as [|c r] eqn:E.
  - simpl. rewrite (bind_return _ _ _ _ _ G). simpl. discriminate.
  - cbn [Text.head] in G. rewrite (parse_json_dispatch _ _ c G).
    destruct (Ascii.eqb c "{"); [simpl; discriminate|].
    destruct (Ascii.eqb c "[").
    { rewrite parse_array_enter.
      assert (R1 : (remaining (TidyJSONParser.new (json_str self) (index self + 1))
                    < fuel)%nat)
        by (unfold remaining in *; cbn [index json_str]; simpl in L; lia).
      apply (array_loop_settles fuel IH).
      - cbn [index]. lia.
      - apply (no_brace_later self); cbn [index json_str];
          [assumption | reflexivity | lia | rewrite E; exact B].
      - exact R1.
      - exact R1. }
    assert (N : fst (parse_number self) <> OutOfFuel).
    { rewrite parse_number_token by assumption.
      destruct (Text.number_of (Text.number_token self)); simpl; discriminate. }
    destruct (Ascii.eqb c Py.quote).
    { rewrite parse_string_run by assumption. simpl. discriminate. }
    destruct (Ascii.eqb c "-"); [exact N|].
    destruct (Ascii.eqb c "t").
    { rewrite literal_closed_form by assumption.
      repeat match goal with
             | |- fst (if ?b then _ else _) <> _ => destruct b; [simpl; discriminate|]
             end.
      simpl. discriminate. }
    destruct (Py.isdigit c); [exact N|]. simpl. discriminate.
Qed.

(** On a text that holds no opening brace from the index on, the
    dispatcher always comes to an end, by a return or by a failure:
    from an index that is not negative, fuel above the number of
    characters left is enough. *)
Theorem parse_json_terminates_without_brace :
  forall fuel self,
    0 <= index self ->
    Py.contains "{" (Text.rest self) = false ->
    (Z.to_nat (Py.len (json_str self) - index self) < fuel)%nat ->
    fst (parse_json fuel self) <> OutOfFuel.
Proof. exact parse_json_settles. Qed.

Lemma parse_json_terminates_without_brace_witness :
  fst (parse_json 14 (start "[[[1,,],[[ ]]")) <> OutOfFuel.
Proof.
  apply (parse_json_terminates_without_brace 14 (start "[[[1,,],[[ ]]")).
  - simpl. lia.
  - reflexivity.
  - simpl. lia.
Defined.

(** ** A key that cannot be hashed *)

(** An array as the key of an object is read, and so is the value after
    the colon; the assignment into the mapping then fails with a
    [TypeError], with the index left after the value. *)
Theorem parse_collection_array_key :
  forall fuel items v self c tail,
    Doc.wf (DArr items) = true -> Doc.wf v = true ->
    Doc.follows v tail = true ->
    (Doc.size (DArr items) <= fuel)%nat -> (Doc.size v <= fuel)%nat ->
    0 <= index self ->
    Text.rest self =
      String c (Doc.render (DArr items) ++ ":" ++ Doc.render v ++ tail) ->
    parse_collection fuel (parse_json fuel) "}" (parse_json fuel) ":" self =
    (Raise TypeError,
     TidyJSONParser.new (json_str self)
       (index self + 1 + Py.len (Doc.render (DArr items)) + 1 + Py.len (Doc.render v))).
Proof.
  intros fuel items v self c tail Wk Wv Fv Sk Sv Hi Hr.
  assert (A : at_text self
                (String c (Doc.render (DArr items) ++ ":" ++ Doc.render v ++ tail)))
    by (split; assumption).
  destruct fuel as [|fuel]; [pose proof (size_positive v); lia|].
  change (parse_collection (S fuel) (parse_json (S fuel)) "}" (parse_json (S fuel)) ":" self)
    with (collection_loop (S fuel) (parse_json (S fuel)) "}" (parse_json (S fuel)) ":"
            (VDict []) (TidyJSONParser.new (json_str self) (index self + 1))).
  pose proof (at_text_next _ _ _ A) as A0.
  rewrite collection_loop_round.
  rewrite (bind_return _ _ _ _ _ (at_text_char _ _ A0)).
  change (negb (char_is (Text.head (Doc.render (DArr items) ++ ":" ++ Doc.render v ++ tail))
                  "}") && negb (is_none (Text.head (Doc.render (DArr items) ++ ":"
                                                     ++ Doc.render v ++ tail))))
    with true. cbv match.
  rewrite (bind_return _ _ _ _ _
             (reads_doc (S fuel) (DArr items) Wk Sk _ _ A0 eq_refl)).
  pose proof (at_text_move _ _ _ A0) as A1. cbn [json_str index] in A1 |- *.
  destruct (render_start v Wv) as (cv & rv & Ev & Vv).
  destruct (value_start_apart cv Vv) as (_ & _ & D2 & _ & D1).
  assert (A1' : at_text
                  (TidyJSONParser.new (json_str self)
                     (index self + 1 + Py.len (Doc.render (DArr items))))
                  (":" ++ String cv (rv ++ tail)))
    by (rewrite Ev in A1; exact A1).
  unfold bind at 1.
  rewrite (bind_return _ _ _ _ _
             (skip_one _ ":"%char ":" cv _ A1' (or_intror eq_refl) D1 D2)).
  pose proof (at_text_move _ _ _ A1) as A2. cbn [json_str index] in A2 |- *.
  rewrite (bind_return _ _ _ _ _ (reads_doc (S fuel) v Wv Sv _ _ A2 Fv)).
  reflexivity.
Qed.

Lemma parse_collection_array_key_witness :
  parse_collection 3 (parse_json 3) "}" (parse_json 3) ":" (start "{[1]:2}") =
  (Raise TypeError, TidyJSONParser.new "{[1]:2}" 6).
Proof.
  apply (parse_collection_array_key 3 [DNum "1"] (DNum "2") (start "{[1]:2}")
           "{"%char "}"); try reflexivity; simpl; lia.
Defined.

(** ** Separators in arrays *)

Lemma run_separator (sep : string) (c : ascii) (r : string) :
  separator sep = true ->
  Ascii.eqb c "," = false -> Ascii.eqb c " " = false ->
  Text.run (fun c => char_is c "," || char_is c " ") (sep ++ String c r) =
  String.length sep.
Proof.
  intros S C1 C2. induction sep as [|a sep IH].
  - cbn [String.append Text.run]. rewrite !char_is_ascii, C1, C2. reflexivity.
  - cbn [separator] in S. apply andb_true_iff in S as [Sa S].
    cbn [String.append Text.run String.length]. rewrite !char_is_ascii, Sa, IH by exact S.
    reflexivity.
Qed.

Lemma skip_run (self : TidyJSONParser.t) (sep : string) (c : ascii) (r : string) :
  at_text self (sep ++ String c r) ->
  separator sep = true ->
  Ascii.eqb c "," = false -> Ascii.eqb c " " = false ->
  skip_spaces_and_char "," self =
  (Return tt, TidyJSONParser.new (json_str self) (index self + Py.len sep)).
Proof.
  intros [Hi Hr] S C1 C2. unfold skip_spaces_and_char.
  rewrite scan_while_run by (assumption || reflexivity).
  rewrite Hr, run_separator by assumption. reflexivity.
Qed.

Lemma loose_elements_start (items : list (doc * string)) :
  (forall d sep, In (d, sep) items -> Doc.wf d = true) ->
  exists c r, loose_elements items = String c r /\
              Ascii.eqb c "," = false /\ Ascii.eqb c " " = false /\
              (items = [] -> c = "]"%char).
Proof.
  intros W. destruct items as [|[d sep] items].
  - exists "]"%char, EmptyString. repeat split.
  - destruct (render_start d (W d sep (or_introl eq_refl))) as (c & r & E & V).
    destruct (value_start_apart c V) as (_ & C1 & C2 & _).
    cbn [loose_elements]. rewrite E. eexists _, _.
    repeat split; try assumption. discriminate.
Qed.

Lemma follows_loose (d : doc) (sep : string) (rest : list (doc * string)) (tail : string) :
  (forall d' sep', In (d', sep') rest -> Doc.wf d' = true) ->
  spaced ((d, sep) :: rest) = true ->
  Doc.follows d (sep ++ loose_elements rest ++ tail) = true.
Proof.
  intros W S. destruct d; try reflexivity.
  cbn [spaced] in S. apply andb_true_iff in S as [S _].
  apply andb_true_iff in S as [S1 S2].
  destruct sep as [|a sep].
  - destruct rest as [|p rest]; [reflexivity | discriminate].
  - cbn [separator] in S1. apply andb_true_iff in S1 as [Sa _].
    cbn [String.append Doc.follows]. unfold Text.number_stop. cbn [existsb].
    apply orb_true_iff in Sa as [Sa|Sa]; rewrite Sa; rewrite ?orb_true_r; reflexivity.
Qed.

Lemma reads_loose_elements (fuel : nat) (items : list (doc * string)) :
  (forall d sep, In (d, sep) items -> Doc.wf d = true /\ reads fuel d) ->
  spaced items = true ->
  forall k acc self tail,
    (List.length items < k)%nat ->
    at_text self (loose_elements items ++ tail) ->
    collection_loop k (parse_json fuel) "]" (parse_json fuel) "," (VList acc) self =
    (Return (VList (acc ++ map (fun p => Doc.value_of (fst p)) items)),
     TidyJSONParser.new (json_str self) (index self + Py.len (loose_elements items))).
Proof.
  induction items as [|[d sep] items IH]; intros H S k acc self tail Hk A;
    (destruct k as [|k]; [simpl in Hk; lia|]); rewrite collection_loop_round.
  - rewrite (bind_return _ _ _ _ _ (at_text_char _ _ A)).
    simpl. rewrite app_nil_r. reflexivity.
  - destruct (H d sep (or_introl eq_refl)) as [Wd Rd].
    assert (Hi : forall d' sep', In (d', sep') items ->
                 Doc.wf d' = true /\ reads fuel d')
      by (intros d' sep' I; apply (H d' sep'); right; exact I).
    assert (Wi : forall d' sep', In (d', sep') items -> Doc.wf d' = true)
      by (intros d' sep' I; exact (proj1 (Hi d' sep' I))).
    pose proof (follows_loose d sep items tail Wi S) as F.
    cbn [spaced] in S. apply andb_true_iff in S as [S Si].
    apply andb_true_iff in S as [Ss _].
    cbn [loose_elements] in *. rewrite !append_assoc in A.
    destruct (render_start d Wd) as (c & r & E & V).
    destruct (value_start_apart c V) as (C0 & _).
    pose proof (at_text_char _ _ A) as G. rewrite E in G. simpl Text.head in G.
    rewrite (bind_return _ _ _ _ _ G).
    rewrite char_is_ascii, C0.
    change (negb false && negb (is_none (Some c))) with true. cbv match.
    rewrite (bind_return _ _ _ _ _ (Rd self _ A F)).
    rewrite (bind_return _ _ _ _ (VList (acc ++ [Doc.value_of d]))) by reflexivity.
    pose proof (at_text_move _ _ _ A) as A1.
    destruct (loose_elements_start items Wi) as (c' & r' & E' & C1 & C2 & _).
    assert (A1' : at_text
                    (TidyJSONParser.new (json_str self)
                       (index self + Py.len (Doc.render d)))
                    (sep ++ String c' (r' ++ tail)))
      by (rewrite E' in A1; exact A1).
    rewrite (bind_return _ _ _ _ _ (skip_run _ sep c' (r' ++ tail) A1' Ss C1 C2)).
    pose proof (at_text_move _ _ _ A1) as A2. cbn [json_str index] in A2 |- *.
    rewrite (IH Hi Si k (acc ++ [Doc.value_of d])%list _ tail
               ltac:(simpl in Hk; lia) A2).
    cbn [json_str index map fst]. rewrite <- app_assoc. simpl app.
    f_equal. f_equal. rewrite !len_append. lia.
Qed.

(** Separators between the elements of an array are free: each element
    may be followed by any run of commas and spaces, an empty run too,
    before the next element or before the closing bracket; only a
    number that is not the last element needs a run that is not empty.
    The dispatcher returns the list of the values of the elements and
    leaves the index after the closing bracket. *)
Theorem array_separators_are_free :
  forall fuel items self tail,
    (forall d sep, In (d, sep) items ->
                   Doc.wf d = true /\ (Doc.size d <= fuel)%nat) ->
    spaced items = true ->
    (List.length items < fuel)%nat ->
    0 <= index self ->
    Text.rest self = String "[" (loose_elements items ++ tail) ->
    parse_json (S fuel) self =
    (Return (VList (map (fun p => Doc.value_of (fst p)) items)),
     TidyJSONParser.new (json_str self)
       (index self + 1 + Py.len (loose_elements items))).
Proof.
  intros fuel items self tail H S L Hi Hr.
  assert (A : at_text self (String "[" (loose_elements items ++ tail)))
    by (split; assumption).
  rewrite (parse_json_on_bracket _ _ (at_text_char _ _ A)), parse_array_enter.
  rewrite (reads_loose_elements fuel items) with (tail := tail);
    [reflexivity | | exact S | exact L | exact (at_text_next _ _ _ A)].
  intros d sep I. destruct (H d sep I) as [W Sz].
  split; [exact W | apply reads_doc; assumption].
Qed.

Lemma array_separators_are_free_witness :
  parse_json 7 (start (json "[1 ,, 'a''b'true, [2],]")) =
  (Return (VList [VInt 1; VStr "a"; VStr "b"; VBool true; VList [VInt 2]]),
   TidyJSONParser.new (json "[1 ,, 'a''b'true, [2],]") 23).
Proof.
  apply (array_separators_are_free 6
           [(DNum "1", " ,, "); (DStr "a", ""); (DStr "b", ""); (DTrue, ", ");
            (DArr [DNum "2"], ",")]
           (start (json "[1 ,, 'a''b'true, [2],]")) "").
  - intros d sep [E|[E|[E|[E|[E|[]]]]]]; inversion E; subst;
      (split; [reflexivity | simpl; lia]).
  - reflexivity.
  - simpl. lia.
  - simpl. lia.
  - reflexivity.
Defined.
